(** * Usage ledger, billing commands and webhook reconciliation

    A shallow embedding of the billing core of the application:
    - [lib/usage/tracker.ts]   (class [UsageTracker]),
    - [lib/stripe/billing.ts]  ([updateSubscriptionSeats], [reportUsage]),
    - the route handlers [update-seats] and [report-usage],
    - the provider webhook route (its [POST] and the five handlers).

    The relational store and the payment provider are external services.
    They are modelled as explicit state: tables are values, every call takes
    the state and returns the new one.  What the outside world decides for a
    call (the clock, whether the store answers) is the call's [Env]. *)

From Stdlib Require Import ZArith Lia.
From stdpp Require Import base option list sorting strings pretty gmap.

Local Open Scope string_scope.
Local Open Scope Z_scope.
Local Open Scope list_scope.

(** ** JavaScript values *)

(** [if (s)] on a [string | undefined]: [undefined] and the empty string are
    falsy, every other string is truthy. *)
Definition truthy (s : option string) : bool :=
  match s with
  | None => false
  | Some s => negb (String.eqb s "")
  end.

(** A thrown [Error] is the [Throw] branch; [await] of a resolved promise is
    [Ok]. *)
Inductive result (A : Type) : Type :=
| Ok (a : A)
| Throw (message : string).
Arguments Ok {A} a.
Arguments Throw {A} message.

(** ** The environment of one request *)

(** [now] is what [new Date()] reads.  [select_error], [insert_error] and
    [update_error] are the [error] member of the store's reply to a query of
    that kind during the request ([None]: the store carried it out). *)
Record Env : Type := {
  now : Z;
  select_error : option string;
  insert_error : option string;
  update_error : option string
}.

Definition healthy (env : Env) : Prop :=
  select_error env = None ∧ insert_error env = None ∧ update_error env = None.

Definition at_time (t : Z) : Env :=
  {| now := t; select_error := None; insert_error := None;
     update_error := None |}.

(** ** Table [usage_records] *)

(** Timestamps are instants in milliseconds since the epoch (the value of
    [Date.getTime()]); the store compares [timestamptz] values, which is the
    order of the instants.  Row ids are issued by the store; the column [id]
    is the field [row_id]. *)
Record UsageRecord : Type := {
  row_id : nat;
  organization_id : string;
  dimension : string;
  quantity : Z;
  timestamp : Z;
  stripe_usage_record_id : option string
}.

Record UsageTable : Type := {
  usage_records : list UsageRecord;
  next_id : nat
}.

(** The object literal handed to [.insert(...)]. *)
Record UsageInsert : Type := {
  ins_organization_id : string;
  ins_dimension : string;
  ins_quantity : Z;
  ins_timestamp : Z;
  ins_stripe_usage_record_id : option string
}.

Definition stored (n : nat) (r : UsageInsert) : UsageRecord :=
  {| row_id := n;
     organization_id := ins_organization_id r;
     dimension := ins_dimension r;
     quantity := ins_quantity r;
     timestamp := ins_timestamp r;
     stripe_usage_record_id := ins_stripe_usage_record_id r |}.

(** Ids of a bulk insert are issued in the order of the list. *)
Fixpoint stored_from (n : nat) (rs : list UsageInsert) : list UsageRecord :=
  match rs with
  | [] => []
  | r :: rs => stored n r :: stored_from (S n) rs
  end.

(** [.insert(rows).select()]: one statement, all rows or none. *)
Definition insert_rows (env : Env) (tbl : UsageTable) (rs : list UsageInsert)
  : result (list UsageRecord) * UsageTable :=
  match insert_error env with
  | Some msg => (Throw msg, tbl)
  | None =>
      let data := stored_from (next_id tbl) rs in
      (Ok data,
       {| usage_records := usage_records tbl ++ data;
          next_id := (next_id tbl + length rs)%nat |})
  end.

(** The filter
    [.eq("organization_id", o).eq("dimension", d).eq("stripe_usage_record_id", k)];
    a row whose key column is NULL matches no key. *)
Definition has_key (o d k : string) (r : UsageRecord) : bool :=
  String.eqb (organization_id r) o && String.eqb (dimension r) d
  && match stripe_usage_record_id r with
     | Some k' => String.eqb k' k
     | None => false
     end.

(** [.single()]: the row when the query has exactly one row, no data when it
    has none or several (or when the store did not answer). *)
Definition single {A : Type} (rows : list A) : option A :=
  match rows with
  | [r] => Some r
  | _ => None
  end.

Definition select_single (env : Env) (tbl : UsageTable) (o d k : string)
  : option UsageRecord :=
  match select_error env with
  | Some _ => None
  | None => single (List.filter (has_key o d k) (usage_records tbl))
  end.

(** ** [UsageTracker] *)

Record TrackResult : Type := {
  tr_id : nat;
  alreadyRecorded : bool
}.

(** The first store call of [trackUsage]: the guarded lookup. *)
Definition trackUsage_lookup (organizationId : string) (env : Env)
    (tbl : UsageTable) (dimension : string) (idempotencyKey : option string)
  : option UsageRecord :=
  match idempotencyKey with
  | Some key =>
      if truthy idempotencyKey
      then select_single env tbl organizationId dimension key
      else None
  | None => None
  end.

(** The second store call of [trackUsage]: the insert. *)
Definition trackUsage_insert (organizationId : string) (env : Env)
    (tbl : UsageTable) (dimension : string) (quantity : Z)
    (usageTimestamp : Z) (idempotencyKey : option string)
  : result TrackResult * UsageTable :=
  match insert_rows env tbl
          [ {| ins_organization_id := organizationId;
               ins_dimension := dimension;
               ins_quantity := quantity;
               ins_timestamp := usageTimestamp;
               ins_stripe_usage_record_id := idempotencyKey |} ] with
  | (Ok (data :: _), tbl') =>
      (Ok {| tr_id := row_id data; alreadyRecorded := false |}, tbl')
  | (Ok [], tbl') => (Throw "Failed to track usage: no row returned", tbl')
  | (Throw msg, tbl') => (Throw ("Failed to track usage: " +:+ msg), tbl')
  end.

Definition trackUsage (organizationId : string) (env : Env)
    (tbl : UsageTable) (dimension : string) (quantity : Z)
    (timestamp : option Z) (idempotencyKey : option string)
  : result TrackResult * UsageTable :=
  let usageTimestamp := default (now env) timestamp in
  match trackUsage_lookup organizationId env tbl dimension idempotencyKey with
  | Some existing =>
      (Ok {| tr_id := row_id existing; alreadyRecorded := true |}, tbl)
  | None =>
      trackUsage_insert organizationId env tbl dimension quantity
        usageTimestamp idempotencyKey
  end.

(** The columns [select("quantity, timestamp")] returns. *)
Record UsagePoint : Type := {
  pt_quantity : Z;
  pt_timestamp : Z
}.

Definition point_of (r : UsageRecord) : UsagePoint :=
  {| pt_quantity := quantity r; pt_timestamp := timestamp r |}.

Record UsageSummary : Type := {
  totalUsage : Z;
  recordCount : nat;
  records : list UsagePoint;
  period : Z * Z
}.

(** The filter of [getUsageSummary]:
    [.gte("timestamp", start).lte("timestamp", end)]. *)
Definition in_period (o d : string) (startDate endDate : Z) (r : UsageRecord)
  : bool :=
  String.eqb (organization_id r) o && String.eqb (dimension r) d
  && (startDate <=? timestamp r) && (timestamp r <=? endDate).

Definition earlier (a b : UsagePoint) : Prop := pt_timestamp a <= pt_timestamp b.

Global Instance earlier_dec a b : Decision (earlier a b).
Proof. unfold earlier. apply _. Defined.

(** [.order("timestamp", { ascending: true })]. *)
Definition order_by_timestamp (l : list UsagePoint) : list UsagePoint :=
  merge_sort earlier l.

Definition getUsageSummary (organizationId : string) (env : Env)
    (tbl : UsageTable) (dimension : string) (startDate endDate : Z)
  : result UsageSummary :=
  match select_error env with
  | Some msg => Throw ("Failed to get usage summary: " +:+ msg)
  | None =>
      let data :=
        order_by_timestamp
          (point_of <$>
             List.filter (in_period organizationId dimension startDate endDate)
               (usage_records tbl)) in
      Ok {| totalUsage := foldl (λ sum record, sum + pt_quantity record) 0 data;
            recordCount := length data;
            records := data;
            period := (startDate, endDate) |}
  end.

(** [batchTrackUsage]: the list is mapped to rows and inserted in one
    statement. *)
Record BatchItem : Type := {
  b_dimension : string;
  b_quantity : Z;
  b_timestamp : option Z;
  b_idempotencyKey : option string
}.

Definition batchTrackUsage (organizationId : string) (env : Env)
    (tbl : UsageTable) (items : list BatchItem)
  : result (list UsageRecord) * UsageTable :=
  let usageRecords :=
    (λ record,
       {| ins_organization_id := organizationId;
          ins_dimension := b_dimension record;
          ins_quantity := b_quantity record;
          ins_timestamp := default (now env) (b_timestamp record);
          ins_stripe_usage_record_id := b_idempotencyKey record |}) <$> items in
  match insert_rows env tbl usageRecords with
  | (Ok data, tbl') => (Ok data, tbl')
  | (Throw msg, tbl') => (Throw ("Failed to batch track usage: " +:+ msg), tbl')
  end.

(** ** Two [trackUsage] calls in flight

    [trackUsage] awaits the store twice: once for the lookup, once for the
    insert.  Between the two awaits another request can run.  A call in
    flight is a [Task]; [task_step] carries it to its next await. *)
Record TrackArgs : Type := {
  a_dimension : string;
  a_quantity : Z;
  a_timestamp : option Z;
  a_idempotencyKey : option string
}.

Inductive Task : Type :=
| Called (a : TrackArgs)
| Looked (a : TrackArgs) (usageTimestamp : Z)
| Returned (r : result TrackResult).

Definition task_step (organizationId : string) (env : Env) (tbl : UsageTable)
    (t : Task) : Task * UsageTable :=
  match t with
  | Called a =>
      let usageTimestamp := default (now env) (a_timestamp a) in
      match trackUsage_lookup organizationId env tbl (a_dimension a)
              (a_idempotencyKey a) with
      | Some existing =>
          (Returned (Ok {| tr_id := row_id existing; alreadyRecorded := true |}),
           tbl)
      | None => (Looked a usageTimestamp, tbl)
      end
  | Looked a usageTimestamp =>
      let '(r, tbl') :=
        trackUsage_insert organizationId env tbl (a_dimension a) (a_quantity a)
          usageTimestamp (a_idempotencyKey a) in
      (Returned r, tbl')
  | Returned r => (Returned r, tbl)
  end.

Inductive Turn : Type := FirstCall | SecondCall.

Record InFlight : Type := {
  first_call : Task;
  second_call : Task;
  table : UsageTable
}.

Definition turn_step (organizationId : string) (env : Env) (who : Turn)
    (st : InFlight) : InFlight :=
  match who with
  | FirstCall =>
      let '(t, tbl) := task_step organizationId env (table st) (first_call st) in
      {| first_call := t; second_call := second_call st; table := tbl |}
  | SecondCall =>
      let '(t, tbl) := task_step organizationId env (table st) (second_call st) in
      {| first_call := first_call st; second_call := t; table := tbl |}
  end.

Definition run_schedule (organizationId : string) (env : Env)
    (schedule : list Turn) (st : InFlight) : InFlight :=
  foldl (λ st who, turn_step organizationId env who st) st schedule.

(** Whether a finished call inserted a row. *)
Definition inserted (t : Task) : bool :=
  match t with
  | Returned (Ok r) => negb (alreadyRecorded r)
  | _ => false
  end.

(** ** [STRIPE_CONFIG]

    The price ids are read from the process environment when the server
    starts; they are parameters of the development. *)
Record StripeConfig : Type := {
  starterPriceId : string;
  proPriceId : string;
  enterprisePriceId : string;
  perSeatPriceId : string;
  meteredUsagePriceId : string
}.

(** [STRIPE_CONFIG.plans], as [(key, priceId)] in the order of
    [Object.keys]. *)
Definition plans (cfg : StripeConfig) : list (string * string) :=
  [ ("starter", starterPriceId cfg);
    ("pro", proPriceId cfg);
    ("enterprise", enterprisePriceId cfg) ].

(** ** The payment provider

    Subscription objects as the provider's API returns them: [item.id],
    [item.price.id], [item.quantity] (absent on metered items),
    [subscription.metadata]. *)
Record SubscriptionItem : Type := {
  item_id : string;
  price_id : string;
  item_quantity : option Z
}.

Record Subscription : Type := {
  sub_id : string;
  sub_status : string;
  sub_items : list SubscriptionItem;
  sub_metadata : gmap string string
}.

(** An element of [items] in [subscriptions.update]: with an [id] it changes
    that item, without one it adds an item. *)
Record ItemParam : Type := {
  ip_id : option string;
  ip_price : string;
  ip_quantity : option Z
}.

Record ProviderUsage : Type := {
  pu_id : string;
  pu_item : string;
  pu_quantity : Z;
  pu_timestamp : option Z
}.

Inductive StripeCall : Type :=
| SubscriptionsRetrieve (subscriptionId : string)
| SubscriptionItemsUpdate (itemId : string) (quantity : Z)
| SubscriptionsUpdate (subscriptionId : string) (items : list ItemParam).

(** The provider's state, with the log of the calls it received. *)
Record Stripe : Type := {
  subscriptions : gmap string Subscription;
  provider_usage : list ProviderUsage;
  next_object : nat;
  calls : list StripeCall
}.

Definition received (c : StripeCall) (p : Stripe) : Stripe :=
  {| subscriptions := subscriptions p;
     provider_usage := provider_usage p;
     next_object := next_object p;
     calls := calls p ++ [c] |}.

Definition with_subscriptions (m : gmap string Subscription) (p : Stripe)
  : Stripe :=
  {| subscriptions := m;
     provider_usage := provider_usage p;
     next_object := next_object p;
     calls := calls p |}.

Definition with_items (l : list SubscriptionItem) (s : Subscription)
  : Subscription :=
  {| sub_id := sub_id s; sub_status := sub_status s; sub_items := l;
     sub_metadata := sub_metadata s |}.

Definition set_quantity (itemId : string) (q : Z) (it : SubscriptionItem)
  : SubscriptionItem :=
  if String.eqb (item_id it) itemId
  then {| item_id := item_id it; price_id := price_id it;
          item_quantity := Some q |}
  else it.

Definition owns_item (itemId : string) (s : Subscription) : bool :=
  existsb (λ it, String.eqb (item_id it) itemId) (sub_items s).

(** [stripe.subscriptions.retrieve(id)]. *)
Definition subscriptions_retrieve (p : Stripe) (subscriptionId : string)
  : result Subscription * Stripe :=
  let p := received (SubscriptionsRetrieve subscriptionId) p in
  match subscriptions p !! subscriptionId with
  | Some s => (Ok s, p)
  | None => (Throw ("No such subscription: " +:+ subscriptionId), p)
  end.

(** [stripe.subscriptionItems.update(id, { quantity })]: sets the quantity of
    the item with that id; the provider refuses a negative quantity and an
    unknown item. *)
Definition subscriptionItems_update (p : Stripe) (itemId : string) (q : Z)
  : result unit * Stripe :=
  let p := received (SubscriptionItemsUpdate itemId q) p in
  if q <? 0 then (Throw "Invalid non-negative integer", p)
  else if bool_decide (map_Exists (λ _ s, owns_item itemId s = true)
                         (subscriptions p))
  then (Ok (),
        with_subscriptions
          ((λ s, with_items (set_quantity itemId q <$> sub_items s) s)
             <$> subscriptions p) p)
  else (Throw ("No such subscription_item: " +:+ itemId), p).

(** One element of [items] applied to the item list; [n] numbers the item it
    may create. *)
Definition apply_param (n : nat) (l : list SubscriptionItem) (ip : ItemParam)
  : list SubscriptionItem :=
  match ip_id ip with
  | Some i =>
      (λ it, if String.eqb (item_id it) i
             then {| item_id := item_id it; price_id := ip_price ip;
                     item_quantity :=
                       match ip_quantity ip with
                       | Some q => Some q
                       | None => item_quantity it
                       end |}
             else it) <$> l
  | None =>
      l ++ [ {| item_id := "si_" +:+ pretty (n + length l)%nat;
                price_id := ip_price ip;
                item_quantity := ip_quantity ip |} ]
  end.

Definition negative_quantity (ip : ItemParam) : bool :=
  match ip_quantity ip with
  | Some q => q <? 0
  | None => false
  end.

(** [stripe.subscriptions.update(id, { items })]. *)
Definition subscriptions_update (p : Stripe) (subscriptionId : string)
    (params : list ItemParam) : result Subscription * Stripe :=
  let p := received (SubscriptionsUpdate subscriptionId params) p in
  match subscriptions p !! subscriptionId with
  | None => (Throw ("No such subscription: " +:+ subscriptionId), p)
  | Some s =>
      if existsb negative_quantity params
      then (Throw "Invalid non-negative integer", p)
      else
        let s' := with_items (foldl (apply_param (next_object p)) (sub_items s)
                                params) s in
        (Ok s',
         {| subscriptions := <[subscriptionId := s']> (subscriptions p);
            provider_usage := provider_usage p;
            next_object := (next_object p + length params)%nat;
            calls := calls p |})
  end.

(** [stripe.subscriptionItems.createUsageRecord(id, { quantity, timestamp,
    action: "increment" })].  The client is built with
    [apiVersion: "2025-09-30.clover"]; the SDK releases of that API version
    have no such method (usage records went away with the legacy usage-based
    billing), so the member is [undefined] and calling it throws a
    [TypeError] inside the process: no request is sent, and the provider's
    state, call log included, is what it was. *)
Definition createUsageRecord (p : Stripe) (itemId : string) (q : Z)
    (ts : option Z) : result ProviderUsage * Stripe :=
  (Throw "stripe.subscriptionItems.createUsageRecord is not a function", p).

(** ** [lib/stripe/billing.ts] *)

Definition is_per_seat (cfg : StripeConfig) (item : SubscriptionItem) : bool :=
  String.eqb (price_id item) (perSeatPriceId cfg).

Definition is_metered (cfg : StripeConfig) (item : SubscriptionItem) : bool :=
  String.eqb (price_id item) (meteredUsagePriceId cfg).

Definition updateSubscriptionSeats (cfg : StripeConfig) (p : Stripe)
    (subscriptionId : string) (seatCount : Z) : result unit * Stripe :=
  match subscriptions_retrieve p subscriptionId with
  | (Throw msg, p) => (Throw msg, p)
  | (Ok subscription, p) =>
      match List.find (is_per_seat cfg) (sub_items subscription) with
      | Some perSeatItem =>
          subscriptionItems_update p (item_id perSeatItem) seatCount
      | None =>
          match
            subscriptions_update p subscriptionId
              (((λ item, {| ip_id := Some (item_id item);
                            ip_price := price_id item;
                            ip_quantity := item_quantity item |})
                  <$> sub_items subscription)
               ++ [ {| ip_id := None;
                       ip_price := perSeatPriceId cfg;
                       ip_quantity := Some seatCount |} ])
          with
          | (Ok _, p) => (Ok (), p)
          | (Throw msg, p) => (Throw msg, p)
          end
      end
  end.

Definition reportUsage (cfg : StripeConfig) (p : Stripe)
    (subscriptionId : string) (quantity : Z) (timestamp : option Z)
  : result ProviderUsage * Stripe :=
  match subscriptions_retrieve p subscriptionId with
  | (Throw msg, p) => (Throw msg, p)
  | (Ok subscription, p) =>
      match List.find (is_metered cfg) (sub_items subscription) with
      | None => (Throw "Metered usage price not found in subscription", p)
      | Some meteredItem =>
          createUsageRecord p (item_id meteredItem) quantity
            ((λ t, t `div` 1000) <$> timestamp)
      end
  end.

(** ** Table [organizations]

    Keyed by the column [id]. *)
Record Organization : Type := {
  name : string;
  slug : string;
  stripe_customer_id : option string;
  stripe_subscription_id : option string;
  subscription_status : option string;
  subscription_plan : option string;
  seat_count : Z;
  created_at : Z;
  updated_at : Z
}.

(** The object literal handed to [.update(...)]: a column that is not
    mentioned ([None]) keeps its value. *)
Record OrganizationUpdate : Type := {
  set_stripe_subscription_id : option (option string);
  set_subscription_status : option (option string);
  set_subscription_plan : option (option string);
  set_seat_count : option Z;
  set_updated_at : option Z
}.

Definition apply_update (u : OrganizationUpdate) (o : Organization)
  : Organization :=
  {| name := name o;
     slug := slug o;
     stripe_customer_id := stripe_customer_id o;
     stripe_subscription_id :=
       default (stripe_subscription_id o) (set_stripe_subscription_id u);
     subscription_status :=
       default (subscription_status o) (set_subscription_status u);
     subscription_plan :=
       default (subscription_plan o) (set_subscription_plan u);
     seat_count := default (seat_count o) (set_seat_count u);
     created_at := created_at o;
     updated_at := default (updated_at o) (set_updated_at u) |}.

(** The state the request handlers act on. *)
Record World : Type := {
  stripe : Stripe;
  usage : UsageTable;
  organizations : gmap string Organization;
  console : list string
}.

Definition log (line : string) (w : World) : World :=
  {| stripe := stripe w; usage := usage w;
     organizations := organizations w;
     console := console w ++ [line] |}.

Definition with_stripe (p : Stripe) (w : World) : World :=
  {| stripe := p; usage := usage w; organizations := organizations w;
     console := console w |}.

Definition with_usage (t : UsageTable) (w : World) : World :=
  {| stripe := stripe w; usage := t; organizations := organizations w;
     console := console w |}.

(** [supabase.from("organizations").update(u).eq("id", organizationId)];
    the handlers do not look at the reply. *)
Definition update_organization (env : Env) (u : OrganizationUpdate)
    (organizationId : string) (w : World) : World :=
  match update_error env with
  | Some _ => w
  | None =>
      {| stripe := stripe w; usage := usage w;
         organizations := alter (apply_update u) organizationId (organizations w);
         console := console w |}
  end.

(** ** HTTP responses *)
Inductive Body : Type :=
| JsonError (error : string)
| JsonReceived
| JsonSuccess
| JsonUsage (usageRecordId : string).

Record Response : Type := {
  status : Z;
  body : Body
}.

Definition json (b : Body) (st : Z) : Response := {| status := st; body := b |}.

(** ** Webhook events *)
Record Invoice : Type := {
  invoice_id : string;
  invoice_metadata : option (gmap string string)
}.

Record CheckoutSession : Type := {
  session_id : string;
  session_metadata : option (gmap string string)
}.

(** [Stripe.Event], a union discriminated by [event.type]. *)
Inductive Event : Type :=
| CustomerSubscriptionCreated (subscription : Subscription)
| CustomerSubscriptionUpdated (subscription : Subscription)
| CustomerSubscriptionDeleted (subscription : Subscription)
| InvoiceFinalized (invoice : Invoice)
| InvoicePaymentFailed (invoice : Invoice)
| CheckoutSessionCompleted (session : CheckoutSession)
| OtherEvent (type : string).

Definition event_type (e : Event) : string :=
  match e with
  | CustomerSubscriptionCreated _ => "customer.subscription.created"
  | CustomerSubscriptionUpdated _ => "customer.subscription.updated"
  | CustomerSubscriptionDeleted _ => "customer.subscription.deleted"
  | InvoiceFinalized _ => "invoice.finalized"
  | InvoicePaymentFailed _ => "invoice.payment_failed"
  | CheckoutSessionCompleted _ => "checkout.session.completed"
  | OtherEvent type => type
  end.

Record WebhookRequest : Type := {
  text : string;
  stripe_signature : option string
}.

Section Handlers.

Variable cfg : StripeConfig.

(** [stripe.webhooks.constructEvent(body, signature, secret)] of the
    provider's SDK: the event when the signature matches the body under the
    secret, [None] when it throws. *)
Variable constructEvent : string → string → string → option Event.

(** [process.env.STRIPE_WEBHOOK_SECRET]. *)
Variable STRIPE_WEBHOOK_SECRET : string.

(** The authorization collaborator [requireOrganizationAccess(id, role)]:
    the organization row, or [Throw] when it redirects. *)
Variable requireOrganizationAccess :
  World → string → option string → result Organization.

(** *** The webhook route *)

Definition seatCount_of (subscription : Subscription) : Z :=
  match List.find (is_per_seat cfg) (sub_items subscription) with
  | Some perSeatItem => default 0 (item_quantity perSeatItem)
  | None => 0
  end.

Definition is_base (item : SubscriptionItem) : bool :=
  negb (String.eqb (price_id item) (perSeatPriceId cfg))
  && negb (String.eqb (price_id item) (meteredUsagePriceId cfg)).

Definition subscriptionPlan_of (subscription : Subscription) : option string :=
  match List.find is_base (sub_items subscription) with
  | Some baseItem =>
      match List.find (λ kv, String.eqb (snd kv) (price_id baseItem))
              (plans cfg) with
      | Some (planKey, _) => if truthy (Some planKey) then Some planKey else None
      | None => None
      end
  | None => None
  end.

Definition handleSubscriptionUpdate (env : Env) (w : World)
    (subscription : Subscription) : World :=
  let organizationId := sub_metadata subscription !! "organization_id" in
  match organizationId with
  | Some oid =>
      if truthy organizationId then
        update_organization env
          {| set_stripe_subscription_id := Some (Some (sub_id subscription));
             set_subscription_status := Some (Some (sub_status subscription));
             set_subscription_plan := Some (subscriptionPlan_of subscription);
             set_seat_count := Some (seatCount_of subscription);
             set_updated_at := Some (now env) |}
          oid w
      else log "No organization_id in subscription metadata" w
  | None => log "No organization_id in subscription metadata" w
  end.

Definition handleSubscriptionDeleted (env : Env) (w : World)
    (subscription : Subscription) : World :=
  let organizationId := sub_metadata subscription !! "organization_id" in
  match organizationId with
  | Some oid =>
      if truthy organizationId then
        update_organization env
          {| set_stripe_subscription_id := Some None;
             set_subscription_status := Some (Some "canceled");
             set_subscription_plan := Some None;
             set_seat_count := Some 0;
             set_updated_at := Some (now env) |}
          oid w
      else log "No organization_id in subscription metadata" w
  | None => log "No organization_id in subscription metadata" w
  end.

Definition handleInvoiceFinalized (w : World) (invoice : Invoice) : World :=
  log ("Invoice finalized: " +:+ invoice_id invoice) w.

Definition handleInvoicePaymentFailed (env : Env) (w : World)
    (invoice : Invoice) : World :=
  let organizationId :=
    invoice_metadata invoice ≫= (λ m, m !! "organization_id") in
  match organizationId with
  | Some oid =>
      if truthy organizationId then
        log ("Payment failed for organization: " +:+ oid)
          (update_organization env
             {| set_stripe_subscription_id := None;
                set_subscription_status := Some (Some "past_due");
                set_subscription_plan := None;
                set_seat_count := None;
                set_updated_at := Some (now env) |}
             oid w)
      else log "No organization_id in invoice metadata" w
  | None => log "No organization_id in invoice metadata" w
  end.

Definition handleCheckoutCompleted (w : World) (session : CheckoutSession)
  : World :=
  let organizationId :=
    session_metadata session ≫= (λ m, m !! "organization_id") in
  match organizationId with
  | Some oid =>
      if truthy organizationId
      then log ("Checkout completed for organization: " +:+ oid) w
      else log "No organization_id in session metadata" w
  | None => log "No organization_id in session metadata" w
  end.

(** The [switch (event.type)] of the handler. *)
Definition dispatch (env : Env) (w : World) (event : Event) : World :=
  match event with
  | CustomerSubscriptionCreated subscription
  | CustomerSubscriptionUpdated subscription =>
      handleSubscriptionUpdate env w subscription
  | CustomerSubscriptionDeleted subscription =>
      handleSubscriptionDeleted env w subscription
  | InvoiceFinalized invoice => handleInvoiceFinalized w invoice
  | InvoicePaymentFailed invoice => handleInvoicePaymentFailed env w invoice
  | CheckoutSessionCompleted session => handleCheckoutCompleted w session
  | OtherEvent type => log ("Unhandled event type: " +:+ type) w
  end.

(** The handler.  Its [catch] branch (500) has no counterpart: the handlers
    above do not throw, the store's client reports a failure in its reply
    and the handlers do not read the reply. *)
Definition webhook_POST (env : Env) (w : World) (request : WebhookRequest)
  : Response * World :=
  match stripe_signature request with
  | Some signature =>
      if truthy (Some signature) then
        match constructEvent (text request) signature STRIPE_WEBHOOK_SECRET with
        | None =>
            (json (JsonError "Invalid signature") 400,
             log "Webhook signature verification failed:" w)
        | Some event => (json JsonReceived 200, dispatch env w event)
        end
      else (json (JsonError "No signature provided") 400, w)
  | None => (json (JsonError "No signature provided") 400, w)
  end.

(** *** Route [update-seats] *)

(** The parsed JSON body; a member that is missing is [None]. *)
Record SeatsBody : Type := {
  seats_organizationId : option string;
  seats_seatCount : option Z
}.

(** [request] is [None] when [request.json()] throws. *)
Definition update_seats_POST (w : World) (request : option SeatsBody)
  : Response * World :=
  let failed w :=
    (json (JsonError "Failed to update seats") 500,
     log "Error updating seats:" w) in
  match request with
  | None => failed w
  | Some b =>
      match seats_organizationId b, seats_seatCount b with
      | Some organizationId, Some seatCount =>
          if negb (truthy (Some organizationId))
          then (json (JsonError "Missing required fields") 400, w)
          else if seatCount <? 0
          then (json (JsonError "Seat count must be non-negative") 400, w)
          else
            match requireOrganizationAccess w organizationId (Some "admin") with
            | Throw _ => failed w
            | Ok organization =>
                match stripe_subscription_id organization with
                | Some subscriptionId =>
                    if truthy (Some subscriptionId) then
                      match updateSubscriptionSeats cfg (stripe w)
                              subscriptionId seatCount with
                      | (Ok _, p) => (json JsonSuccess 200, with_stripe p w)
                      | (Throw _, p) => failed (with_stripe p w)
                      end
                    else
                      (json (JsonError "No active subscription found") 400, w)
                | None =>
                    (json (JsonError "No active subscription found") 400, w)
                end
            end
      | _, _ => (json (JsonError "Missing required fields") 400, w)
      end
  end.

(** *** Route [report-usage] *)

Record UsageBody : Type := {
  usage_organizationId : option string;
  usage_dimension : option string;
  usage_quantity : option Z;
  usage_timestamp : option Z
}.

(** [timestamp ? ... : ...] on a number: [undefined] and [0] are falsy. *)
Definition truthy_number (n : option Z) : bool :=
  match n with
  | Some n => negb (n =? 0)
  | None => false
  end.

Definition report_usage_POST (env : Env) (w : World)
    (request : option UsageBody) : Response * World :=
  let failed w :=
    (json (JsonError "Failed to report usage") 500,
     log "Error reporting usage:" w) in
  match request with
  | None => failed w
  | Some b =>
      match usage_organizationId b, usage_dimension b, usage_quantity b with
      | Some organizationId, Some dimension, Some quantity =>
          if negb (truthy (Some organizationId)) || negb (truthy (Some dimension))
          then (json (JsonError "Missing required fields") 400, w)
          else if quantity <? 0
          then (json (JsonError "Quantity must be non-negative") 400, w)
          else
            match requireOrganizationAccess w organizationId None with
            | Throw _ => failed w
            | Ok organization =>
                match stripe_subscription_id organization with
                | Some subscriptionId =>
                    if truthy (Some subscriptionId) then
                      let timestamp :=
                        if truthy_number (usage_timestamp b)
                        then usage_timestamp b else None in
                      match reportUsage cfg (stripe w) subscriptionId quantity
                              timestamp with
                      | (Throw _, p) => failed (with_stripe p w)
                      | (Ok usageRecord, p) =>
                          let '(_, tbl) :=
                            insert_rows env (usage w)
                              [ {| ins_organization_id := organizationId;
                                   ins_dimension := dimension;
                                   ins_quantity := quantity;
                                   ins_timestamp := default (now env) timestamp;
                                   ins_stripe_usage_record_id :=
                                     Some (pu_id usageRecord) |} ] in
                          (json (JsonUsage (pu_id usageRecord)) 200,
                           with_usage tbl (with_stripe p w))
                      end
                    else
                      (json (JsonError "No active subscription found") 400, w)
                | None =>
                    (json (JsonError "No active subscription found") 400, w)
                end
            end
      | _, _, _ => (json (JsonError "Missing required fields") 400, w)
      end
  end.

End Handlers.

(** ** [lib/auth/helpers.ts] *)

(** [roleHierarchy[role]] for a [role] of the declared type
    [OrganizationMember["role"]], one of the three keys of the object
    literal.  For any other string this table answers [None], which is what
    the literal answers ([undefined]) unless the string names a member every
    object inherits ([toString], [constructor], ...): those keys are outside
    this table.  Table and literal agree whenever at least one of the two
    strings compared is one of the three roles. *)
Definition roleHierarchy (role : string) : option Z :=
  if String.eqb role "member" then Some 0
  else if String.eqb role "admin" then Some 1
  else if String.eqb role "owner" then Some 2
  else None.

(** [roleHierarchy[userRole] >= roleHierarchy[requiredRole]]; a comparison
    with [undefined] is false. *)
Definition hasRequiredRole (userRole requiredRole : string) : bool :=
  match roleHierarchy userRole, roleHierarchy requiredRole with
  | Some a, Some b => b <=? a
  | _, _ => false
  end.

(** [[0-9a-f]] under the flag [i]. *)
Definition is_hex (c : Ascii.ascii) : bool :=
  let n := Ascii.nat_of_ascii c in
  ((48 <=? n) && (n <=? 57) || (97 <=? n) && (n <=? 102)
   || (65 <=? n) && (n <=? 70))%nat.

(** [[0-9a-f]{n}] at the head of [s]: what follows the [n] digits. *)
Fixpoint hex_run (n : nat) (s : string) : option string :=
  match n with
  | O => Some s
  | S n =>
      match s with
      | String c rest => if is_hex c then hex_run n rest else None
      | EmptyString => None
      end
  end.

(** The character [-], code 45. *)
Definition dash (s : string) : option string :=
  match s with
  | String c rest =>
      if (Ascii.nat_of_ascii c =? 45)%nat then Some rest else None
  | EmptyString => None
  end.

(** [/^[0-9a-f]{8}-[0-9a-f]{4}-[0-9a-f]{4}-[0-9a-f]{4}-[0-9a-f]{12}$/i.test(s)]. *)
Definition isUuid (s : string) : bool :=
  match ((((((((hex_run 8 s ≫= dash) ≫= hex_run 4) ≫= dash) ≫= hex_run 4)
             ≫= dash) ≫= hex_run 4) ≫= dash) ≫= hex_run 12) with
  | Some EmptyString => true
  | _ => false
  end.

(** Table [organization_members], and the session. *)
Record Membership : Type := {
  member_user_id : string;
  member_organization_id : string;
  member_role : string
}.

(** [session_user] is the id of the user [getUser()] returns, [None] when
    nobody is signed in.  Row-level security is taken to show a caller the
    rows of their own memberships and the organizations they point to.
    [members_error] is the [error] of the store's reply to the membership
    query when the store fails, [None] when it answers. *)
Record Auth : Type := {
  session_user : option string;
  organization_members : list Membership;
  members_error : option string
}.

(** The rows of the query of [requireOrganizationAccess]: the caller's
    memberships joined ([!inner]) with their organization, filtered by the
    organization's id or by its slug.  Ids are compared as the strings the
    table holds. *)
Definition access_rows (uid : string) (members : list Membership) (w : World)
    (organizationIdOrSlug : string) : list (Membership * Organization) :=
  omap (λ m,
          match organizations w !! member_organization_id m with
          | Some org =>
              if String.eqb (member_user_id m) uid
                 && (if isUuid organizationIdOrSlug
                     then String.eqb (member_organization_id m)
                            organizationIdOrSlug
                     else String.eqb (slug org) organizationIdOrSlug)
              then Some (m, org) else None
          | None => None
          end) members.

(** [redirect(...)] throws; inside a route handler the [catch] receives it.
    [if (error || !data)]: [.single()] answers with an error when the rows
    are not exactly one, and so does a store that fails. *)
Definition requireOrganizationAccess (auth : Auth) (w : World)
    (organizationIdOrSlug : string) (userRole : option string)
  : result Organization :=
  match session_user auth with
  | None => Throw "NEXT_REDIRECT;/login"
  | Some uid =>
      match members_error auth with
      | Some _ => Throw "NEXT_REDIRECT;/dashboard"
      | None =>
          match single (access_rows uid (organization_members auth) w
                          organizationIdOrSlug) with
          | None => Throw "NEXT_REDIRECT;/dashboard"
          | Some (data, organization) =>
              match userRole with
              | Some required =>
                  if truthy userRole
                     && negb (hasRequiredRole (member_role data) required)
                  then Throw "NEXT_REDIRECT;/dashboard"
                  else Ok organization
              | None => Ok organization
              end
          end
      end
  end.

(** ** Checkout and portal *)

(** The object handed to [stripe.checkout.sessions.create]. *)
Record CheckoutParams : Type := {
  cp_customer : string;
  cp_price : string;
  cp_quantity : Z;
  cp_success_url : string;
  cp_cancel_url : string;
  cp_metadata_organization_id : string;
  cp_subscription_metadata_organization_id : string
}.

(** The argument of [createCheckoutSession]; [isPerSeat] and [seatCount]
    have the defaults [false] and [1]. *)
Record CheckoutArgs : Type := {
  ca_organizationId : string;
  ca_priceId : string;
  ca_successUrl : string;
  ca_cancelUrl : string;
  ca_customerId : string;
  ca_isPerSeat : option bool;
  ca_seatCount : option Z
}.

(** [create] is the provider's [checkout.sessions.create], answering with the
    id of the session it opened. *)
Definition createCheckoutSession (create : CheckoutParams → result string)
    (a : CheckoutArgs) : result string :=
  let isPerSeat := default false (ca_isPerSeat a) in
  let seatCount := default 1 (ca_seatCount a) in
  create
    {| cp_customer := ca_customerId a;
       cp_price := ca_priceId a;
       cp_quantity := if isPerSeat then seatCount else 1;
       cp_success_url := ca_successUrl a;
       cp_cancel_url := ca_cancelUrl a;
       cp_metadata_organization_id := ca_organizationId a;
       cp_subscription_metadata_organization_id := ca_organizationId a |}.

Record CheckoutBody : Type := {
  co_organizationId : option string;
  co_priceId : option string;
  co_isPerSeat : option bool;
  co_seatCount : option Z
}.

Inductive CheckoutReply : Type :=
| CheckoutSessionId (sessionId : string)
| CheckoutError (error : string).

(** Route [create-checkout-session]; [APP_URL] is
    [process.env.NEXT_PUBLIC_APP_URL]. *)
Definition create_checkout_session_POST
    (access : World → string → option string → result Organization)
    (create : CheckoutParams → result string) (APP_URL : string)
    (w : World) (request : option CheckoutBody) : Z * CheckoutReply :=
  let failed := (500, CheckoutError "Failed to create checkout session") in
  match request with
  | None => failed
  | Some b =>
      match co_organizationId b, co_priceId b with
      | Some organizationId, Some priceId =>
          if negb (truthy (Some organizationId)) || negb (truthy (Some priceId))
          then (400, CheckoutError "Missing required fields")
          else
            match access w organizationId (Some "admin") with
            | Throw _ => failed
            | Ok organization =>
                match stripe_customer_id organization with
                | Some customerId =>
                    if truthy (Some customerId) then
                      match
                        createCheckoutSession create
                          {| ca_organizationId := organizationId;
                             ca_priceId := priceId;
                             ca_successUrl :=
                               APP_URL +:+ "/dashboard/billing?success=true";
                             ca_cancelUrl :=
                               APP_URL +:+ "/dashboard/billing?canceled=true";
                             ca_customerId := customerId;
                             ca_isPerSeat := co_isPerSeat b;
                             ca_seatCount :=
                               Some (if truthy_number (co_seatCount b)
                                     then default 1 (co_seatCount b) else 1) |}
                      with
                      | Ok sessionId => (200, CheckoutSessionId sessionId)
                      | Throw _ => failed
                      end
                    else
                      (400, CheckoutError
                              "No Stripe customer found for organization")
                | None =>
                    (400, CheckoutError
                            "No Stripe customer found for organization")
                end
            end
      | _, _ => (400, CheckoutError "Missing required fields")
      end
  end.

(** ** Dates

    The date algorithms of the language standard, for a process whose time
    zone is UTC (local time is then the time value itself).  Time values are
    milliseconds since the epoch. *)
Definition msPerDay : Z := 86400000.

Definition DaysInYear (y : Z) : Z :=
  if negb (y `mod` 4 =? 0) then 365
  else if negb (y `mod` 100 =? 0) then 366
  else if negb (y `mod` 400 =? 0) then 365
  else 366.

Definition InLeapYear (y : Z) : Z := if DaysInYear y =? 366 then 1 else 0.

Definition DayFromYear (y : Z) : Z :=
  365 * (y - 1970) + (y - 1969) `div` 4 - (y - 1901) `div` 100
  + (y - 1601) `div` 400.

(** The day of the year on which month [mn] (0 to 11) starts. *)
Definition month_start (mn leap : Z) : Z :=
  if mn =? 0 then 0
  else if mn =? 1 then 31
  else if mn =? 2 then 59 + leap
  else if mn =? 3 then 90 + leap
  else if mn =? 4 then 120 + leap
  else if mn =? 5 then 151 + leap
  else if mn =? 6 then 181 + leap
  else if mn =? 7 then 212 + leap
  else if mn =? 8 then 243 + leap
  else if mn =? 9 then 273 + leap
  else if mn =? 10 then 304 + leap
  else 334 + leap.

(** [MakeDay(year, month, date)]: months outside 0..11 and days outside the
    month carry over. *)
Definition MakeDay (year month date : Z) : Z :=
  let ym := year + month `div` 12 in
  let mn := month `mod` 12 in
  DayFromYear ym + month_start mn (InLeapYear ym) + date - 1.

(** [new Date(year, monthIndex, day).getTime()]; a year from 0 to 99 stands
    for 1900 + year. *)
Definition Date_of (year monthIndex day : Z) : Z :=
  let yr := if (0 <=? year) && (year <=? 99) then 1900 + year else year in
  MakeDay yr monthIndex day * msPerDay.

(** The civil date of a day number: year, and month from 1 to 12. *)
Definition civil_from_days (days : Z) : Z * Z :=
  let z := days + 719468 in
  let era := z `div` 146097 in
  let doe := z - era * 146097 in
  let yoe := (doe - doe `div` 1460 + doe `div` 36524 - doe `div` 146096)
             `div` 365 in
  let doy := doe - (365 * yoe + yoe `div` 4 - yoe `div` 100) in
  let mp := (5 * doy + 2) `div` 153 in
  let m := if mp <? 10 then mp + 3 else mp - 9 in
  (yoe + era * 400 + (if m <=? 2 then 1 else 0), m).

(** [new Date(t).getFullYear()] and [.getMonth()]. *)
Definition getFullYear (t : Z) : Z := (civil_from_days (t `div` msPerDay)).1.

Definition getMonth (t : Z) : Z := (civil_from_days (t `div` msPerDay)).2 - 1.

(** [UsageTracker.getCurrentMonthUsage]. *)
Definition getCurrentMonthUsage (organizationId : string) (env : Env)
    (tbl : UsageTable) (dimension : string) : result UsageSummary :=
  let startOfMonth := Date_of (getFullYear (now env)) (getMonth (now env)) 1 in
  let endOfMonth :=
    Date_of (getFullYear (now env)) (getMonth (now env) + 1) 0 in
  getUsageSummary organizationId env tbl dimension startOfMonth endOfMonth.

(** * Properties *)

(** ** Vocabulary of the statements *)

(** The records of [(organization, dimension)] whose instant lies in the
    closed interval from [s] to [e]. *)
Definition within_closed (o d : string) (s e : Z) (tbl : UsageTable)
  : list UsageRecord :=
  filter (λ r, organization_id r = o ∧ dimension r = d ∧ s ≤ timestamp r ≤ e)
    (usage_records tbl).

(** The same with [e] itself left out. *)
Definition within_half_open (o d : string) (s e : Z) (tbl : UsageTable)
  : list UsageRecord :=
  filter (λ r, organization_id r = o ∧ dimension r = d ∧ s ≤ timestamp r < e)
    (usage_records tbl).

Definition sum_quantity (l : list UsageRecord) : Z :=
  foldr (λ r acc, quantity r + acc) 0 l.

(** The records that carry the triple [(organization, dimension, key)]. *)
Definition keyed (o d k : string) (tbl : UsageTable) : list UsageRecord :=
  filter (λ r, organization_id r = o ∧ dimension r = d
               ∧ stripe_usage_record_id r = Some k)
    (usage_records tbl).

(** Sequential calls of [trackUsage] with the same arguments, one per
    element of [envs]. *)
Definition retry (o : string) (envs : list Env) (tbl : UsageTable)
    (d : string) (q : Z) (ts : option Z) (key : option string) : UsageTable :=
  foldl (λ tbl env, (trackUsage o env tbl d q ts key).2) tbl envs.

(** [x] is the first element of [l] that satisfies [P]. *)
Definition first_such {A : Type} (P : A → Prop) (l : list A) (x : A) : Prop :=
  ∃ pre post, l = pre ++ x :: post ∧ Forall (λ y, ¬ P y) pre ∧ P x.


(** A request whose signature header verifies and yields [event]. *)
Definition signed (constructEvent : string → string → string → option Event)
    (secret : string) (request : WebhookRequest) (event : Event) : Prop :=
  ∃ signature,
    stripe_signature request = Some signature ∧ signature ≠ ""
    ∧ constructEvent (text request) signature secret = Some event.

(** A request whose signature header is missing or does not verify. *)
Definition unsigned (constructEvent : string → string → string → option Event)
    (secret : string) (request : WebhookRequest) : Prop :=
  match stripe_signature request with
  | None => True
  | Some signature =>
      signature = "" ∨ constructEvent (text request) signature secret = None
  end.

(** The per-seat line items of a subscription. *)
Definition per_seat_items (cfg : StripeConfig) (s : Subscription)
  : list SubscriptionItem :=
  filter (λ it, price_id it = perSeatPriceId cfg) (sub_items s).

(** What the provider guarantees of a subscription it holds: item ids are
    distinct, quantities are not negative, and a price occurs on at most one
    item (stated here for the per-seat price). *)
Definition well_formed (cfg : StripeConfig) (s : Subscription) : Prop :=
  NoDup (item_id <$> sub_items s)
  ∧ Forall (λ it, ∀ q, item_quantity it = Some q → 0 ≤ q) (sub_items s)
  ∧ (length (per_seat_items cfg s) ≤ 1)%nat.

(** Item [it] with its quantity replaced. *)
Definition with_quantity (q : Z) (it : SubscriptionItem) : SubscriptionItem :=
  {| item_id := item_id it; price_id := price_id it; item_quantity := Some q |}.

(** The element of [items] that [updateSubscriptionSeats] sends for an item
    the subscription has. *)
Definition param_of (item : SubscriptionItem) : ItemParam :=
  {| ip_id := Some (item_id item); ip_price := price_id item;
     ip_quantity := item_quantity item |}.

(** Metadata that names no organization: there is no metadata, or no
    [organization_id] in it, or an empty one. *)
Definition names_nobody (m : option (gmap string string)) : Prop :=
  match m ≫= (λ m, m !! "organization_id") with
  | None => True
  | Some oid => oid = ""
  end.

(** The subscription events. *)
Definition subscription_event (event : Event) (s : Subscription) : Prop :=
  event = CustomerSubscriptionCreated s
  ∨ event = CustomerSubscriptionUpdated s
  ∨ event = CustomerSubscriptionDeleted s.

(** What a webhook delivery leaves alone: the provider, the usage table, the
    set of organizations, and of each organization its name, slug, customer
    id and creation time. *)
Definition kept (w w' : World) : Prop :=
  stripe w' = stripe w ∧ usage w' = usage w
  ∧ dom (organizations w') = dom (organizations w)
  ∧ ∀ oid o', organizations w' !! oid = Some o' →
      ∃ o, organizations w !! oid = Some o
           ∧ name o' = name o ∧ slug o' = slug o
           ∧ stripe_customer_id o' = stripe_customer_id o
           ∧ created_at o' = created_at o.

(** The number of days of month [m] (0 to 11) of year [y]. *)
Definition days_in_month (y m : Z) : Z :=
  if m =? 1 then 28 + InLeapYear y
  else if (m =? 3) || (m =? 5) || (m =? 8) || (m =? 10) then 30
  else 31.

(** The three roles of [roleHierarchy]. *)
Definition known_role (r : string) : Prop :=
  r = "member" ∨ r = "admin" ∨ r = "owner".

(** ** Sample data for the examples *)

Definition sample_cfg : StripeConfig :=
  {| starterPriceId := "price_starter";
     proPriceId := "price_pro";
     enterprisePriceId := "price_enterprise";
     perSeatPriceId := "price_per_seat";
     meteredUsagePriceId := "price_metered_usage" |}.

(** A stand-in for the SDK's verification: the one accepted signature of a
    body is the secret followed by the body, and the body then parses to
    [event]. *)
Definition sample_constructEvent (event : Event) (body signature secret : string)
  : option Event :=
  if String.eqb signature (secret +:+ body) then Some event else None.

Definition sample_organization : Organization :=
  {| name := "Acme"; slug := "acme";
     stripe_customer_id := Some "cus_1";
     stripe_subscription_id := Some "sub_0";
     subscription_status := Some "active";
     subscription_plan := Some "starter";
     seat_count := 2;
     created_at := 0;
     updated_at := 0 |}.

Definition sample_subscription : Subscription :=
  {| sub_id := "sub_1";
     sub_status := "active";
     sub_items :=
       [ {| item_id := "si_a"; price_id := "price_pro";
            item_quantity := Some 1 |};
         {| item_id := "si_b"; price_id := "price_per_seat";
            item_quantity := Some 3 |} ];
     sub_metadata := {[ "organization_id" := "org-1" ]} |}.

Definition sample_invoice : Invoice :=
  {| invoice_id := "in_1";
     invoice_metadata := Some {[ "organization_id" := "org-1" ]} |}.

(** A subscription whose first item is an add-on at a price no plan is
    configured with, followed by the pro plan and the seats. *)
Definition addon_subscription : Subscription :=
  {| sub_id := "sub_4";
     sub_status := "active";
     sub_items :=
       [ {| item_id := "si_x"; price_id := "price_addon";
            item_quantity := Some 1 |};
         {| item_id := "si_a"; price_id := "price_pro";
            item_quantity := Some 1 |};
         {| item_id := "si_b"; price_id := "price_per_seat";
            item_quantity := Some 3 |} ];
     sub_metadata := {[ "organization_id" := "org-1" ]} |}.

Definition sample_stripe : Stripe :=
  {| subscriptions := {[ "sub_1" := sample_subscription ]};
     provider_usage := [];
     next_object := 0;
     calls := [] |}.

(** A provider that holds one subscription with the base plan only. *)
Definition base_only_subscription : Subscription :=
  {| sub_id := "sub_2";
     sub_status := "active";
     sub_items :=
       [ {| item_id := "si_a"; price_id := "price_pro";
            item_quantity := Some 1 |} ];
     sub_metadata := {[ "organization_id" := "org-1" ]} |}.

Definition base_only_stripe : Stripe :=
  {| subscriptions := {[ "sub_2" := base_only_subscription ]};
     provider_usage := [];
     next_object := 0;
     calls := [] |}.

(** A provider that holds one subscription with a base plan and a metered
    item. *)
Definition metered_subscription : Subscription :=
  {| sub_id := "sub_3";
     sub_status := "active";
     sub_items :=
       [ {| item_id := "si_a"; price_id := "price_starter";
            item_quantity := Some 1 |};
         {| item_id := "si_m"; price_id := "price_metered_usage";
            item_quantity := None |} ];
     sub_metadata := {[ "organization_id" := "org-1" ]} |}.

Definition metered_stripe : Stripe :=
  {| subscriptions := {[ "sub_3" := metered_subscription ]};
     provider_usage := [];
     next_object := 0;
     calls := [] |}.

Definition metered_world : World :=
  {| stripe := metered_stripe;
     usage := {| usage_records := []; next_id := 0 |};
     organizations := ∅;
     console := [] |}.

(** An authorization collaborator that lets every caller into one
    organization, whose subscription is [sid]. *)
Definition grant (sid : string) (w : World) (organizationId : string)
    (role : option string) : result Organization :=
  Ok {| name := "Acme"; slug := "acme";
        stripe_customer_id := Some "cus_1";
        stripe_subscription_id := Some sid;
        subscription_status := Some "active";
        subscription_plan := Some "starter";
        seat_count := 1; created_at := 0; updated_at := 0 |}.

(** A signed-in user who is admin of one organization, whose id has the
    shape of a UUID, and plain member of another. *)
Definition sample_auth : Auth :=
  {| session_user := Some "user-1";
     organization_members :=
       [ {| member_user_id := "user-1";
            member_organization_id := "0a1b2c3d-0000-4000-8000-00000000000a";
            member_role := "admin" |};
         {| member_user_id := "user-1";
            member_organization_id := "0a1b2c3d-0000-4000-8000-00000000000b";
            member_role := "member" |} ];
     members_error := None |}.

Definition uuid_world : World :=
  {| stripe := base_only_stripe;
     usage := {| usage_records := []; next_id := 0 |};
     organizations :=
       {[ "0a1b2c3d-0000-4000-8000-00000000000a" :=
            {| name := "Acme"; slug := "acme";
               stripe_customer_id := Some "cus_1";
               stripe_subscription_id := Some "sub_2";
               subscription_status := Some "active";
               subscription_plan := Some "pro";
               seat_count := 0; created_at := 0; updated_at := 0 |};
          "0a1b2c3d-0000-4000-8000-00000000000b" :=
            {| name := "Beta"; slug := "beta";
               stripe_customer_id := None;
               stripe_subscription_id := Some "sub_2";
               subscription_status := None;
               subscription_plan := None;
               seat_count := 0; created_at := 0; updated_at := 0 |} ]};
     console := [] |}.

Definition sample_world : World :=
  {| stripe := sample_stripe;
     usage := {| usage_records := []; next_id := 0 |};
     organizations := {[ "org-1" := sample_organization ]};
     console := [] |}.

Definition sample_request : WebhookRequest :=
  {| text := "{}"; stripe_signature := Some "whsec_1{}" |}.

Definition forged_request : WebhookRequest :=
  {| text := "{}"; stripe_signature := Some "v1=deadbeef" |}.

(** ** Booleans of the code and their meaning *)

Lemma eqb_true (a b : string) : String.eqb a b = true ↔ a = b.
Proof. apply String.eqb_eq. Qed.

Lemma truthy_Some (s : string) : truthy (Some s) = true ↔ s ≠ "".
Proof.
  simpl. rewrite negb_true_iff. split.
  - intros H ->. by rewrite String.eqb_refl in H.
  - intros H. by apply String.eqb_neq.
Qed.

Lemma truthy_Some_false (s : string) : truthy (Some s) = false ↔ s = "".
Proof. simpl. rewrite negb_false_iff. apply String.eqb_eq. Qed.

Lemma List_filter_ext_dec {A} (f : A → bool) (P : A → Prop)
    `{∀ x, Decision (P x)} (l : list A) :
  (∀ x, f x = true ↔ P x) → List.filter f l = filter P l.
Proof.
  intros Hf. induction l as [|x l IH]; [done|].
  simpl. rewrite filter_cons. destruct (f x) eqn:E.
  - apply Hf in E. rewrite decide_True by done. by rewrite IH.
  - rewrite decide_False; [done|]. intros HP. apply Hf in HP. congruence.
Qed.

Lemma in_period_spec o d s e r :
  in_period o d s e r = true
  ↔ organization_id r = o ∧ dimension r = d ∧ s ≤ timestamp r ≤ e.
Proof.
  unfold in_period. rewrite !andb_true_iff, !eqb_true, !Z.leb_le. tauto.
Qed.

Lemma has_key_spec o d k r :
  has_key o d k r = true
  ↔ organization_id r = o ∧ dimension r = d ∧ stripe_usage_record_id r = Some k.
Proof.
  unfold has_key. rewrite !andb_true_iff, !eqb_true.
  destruct (stripe_usage_record_id r) as [k'|].
  - rewrite eqb_true. split; [intros [[??]?]|intros (?&?&[=])]; subst; auto.
  - split; [intros [_ ?]|intros (_&_&?)]; done.
Qed.

(** ** The usage summary *)

Global Instance earlier_trans : Transitive earlier.
Proof. unfold earlier. intros a b c. lia. Qed.

Global Instance earlier_total : Total earlier.
Proof. unfold earlier. intros a b. lia. Qed.

Lemma foldl_sum_points (l : list UsagePoint) (acc : Z) :
  foldl (λ sum record, sum + pt_quantity record) acc l
  = acc + foldr (λ p a, pt_quantity p + a) 0 l.
Proof.
  revert acc. induction l as [|p l IH]; intros acc; simpl; [lia|].
  rewrite IH. lia.
Qed.

Lemma sum_points_perm (l k : list UsagePoint) :
  l ≡ₚ k →
  foldr (λ p a, pt_quantity p + a) 0 l = foldr (λ p a, pt_quantity p + a) 0 k.
Proof. induction 1; simpl; lia. Qed.

Lemma sum_points_of (l : list UsageRecord) :
  foldr (λ p a, pt_quantity p + a) 0 (point_of <$> l) = sum_quantity l.
Proof.
  unfold sum_quantity. induction l as [|r l IH]; csimpl; [done|].
  by rewrite IH.
Qed.

Lemma getUsageSummary_ok o env tbl d s e :
  select_error env = None →
  ∃ sm, getUsageSummary o env tbl d s e = Ok sm
        ∧ records sm = order_by_timestamp (point_of <$> within_closed o d s e tbl)
        ∧ totalUsage sm = sum_quantity (within_closed o d s e tbl)
        ∧ recordCount sm = length (within_closed o d s e tbl)
        ∧ period sm = (s, e).
Proof.
  intros Hs. unfold getUsageSummary. rewrite Hs.
  rewrite (List_filter_ext_dec _ _ _ (in_period_spec o d s e)).
  fold (within_closed o d s e tbl).
  eexists. split; [reflexivity|]. simpl. split_and!; try done.
  - rewrite foldl_sum_points. unfold order_by_timestamp.
    rewrite (sum_points_perm _ _ (merge_sort_Permutation _ _)).
    rewrite sum_points_of. lia.
  - unfold order_by_timestamp.
    rewrite (Permutation_length (merge_sort_Permutation _ _)).
    by rewrite length_fmap.
Qed.

(** C7, as amended: with a store that answers, the summary is taken over the
    records of the organization and dimension whose timestamp lies in the
    closed interval from [s] to [e], both ends included: [totalUsage] is the
    sum of their quantities, [recordCount] their number, and [records] lists
    exactly them in ascending order of timestamp. *)
Theorem getUsageSummary_closed_interval o env tbl d s e :
  select_error env = None →
  ∃ sm, getUsageSummary o env tbl d s e = Ok sm
        ∧ totalUsage sm = sum_quantity (within_closed o d s e tbl)
        ∧ recordCount sm = length (within_closed o d s e tbl)
        ∧ records sm ≡ₚ point_of <$> within_closed o d s e tbl
        ∧ StronglySorted (λ a b, pt_timestamp a ≤ pt_timestamp b) (records sm).
Proof.
  intros Hs. destruct (getUsageSummary_ok o env tbl d s e Hs)
    as (sm & Hsm & Hrec & Htot & Hcnt & _).
  exists sm. split_and!; try done.
  - rewrite Hrec. apply merge_sort_Permutation.
  - rewrite Hrec. apply (StronglySorted_merge_sort earlier).
Qed.

Lemma getUsageSummary_closed_interval_witness :
  ∃ sm, getUsageSummary "org-1" (at_time 50)
          {| usage_records :=
               [ {| row_id := 0; organization_id := "org-1";
                    dimension := "api_calls"; quantity := 3; timestamp := 20;
                    stripe_usage_record_id := None |};
                 {| row_id := 1; organization_id := "org-1";
                    dimension := "api_calls"; quantity := 4; timestamp := 10;
                    stripe_usage_record_id := None |} ];
             next_id := 2 |} "api_calls" 10 20 = Ok sm
        ∧ totalUsage sm = 7 ∧ recordCount sm = 2%nat.
Proof.
  destruct (getUsageSummary_closed_interval "org-1" (at_time 50)
          {| usage_records :=
               [ {| row_id := 0; organization_id := "org-1";
                    dimension := "api_calls"; quantity := 3; timestamp := 20;
                    stripe_usage_record_id := None |};
                 {| row_id := 1; organization_id := "org-1";
                    dimension := "api_calls"; quantity := 4; timestamp := 10;
                    stripe_usage_record_id := None |} ];
             next_id := 2 |} "api_calls" 10 20 eq_refl)
    as (sm & H & Ht & Hc & _).
  exists sm. split; [exact H|]. split; [exact Ht | exact Hc].
Defined.

(** C7 as stated fails: a record whose timestamp equals [end] is outside the
    half-open interval, and the summary counts it. *)
Lemma summary_counts_record_at_end :
  let tbl :=
    {| usage_records :=
         [ {| row_id := 0; organization_id := "org-1"; dimension := "api_calls";
              quantity := 5; timestamp := 10;
              stripe_usage_record_id := None |} ];
       next_id := 1 |} in
  0 < 10
  ∧ within_half_open "org-1" "api_calls" 0 10 tbl = []
  ∧ ∃ sm, getUsageSummary "org-1" (at_time 50) tbl "api_calls" 0 10 = Ok sm
          ∧ totalUsage sm = 5 ∧ recordCount sm = 1%nat
          ∧ records sm = [ {| pt_quantity := 5; pt_timestamp := 10 |} ].
Proof.
  split; [lia|]. split; [reflexivity|].
  eexists. split; [reflexivity|]. by vm_compute.
Qed.

(** ** Idempotent recording *)

Lemma keyed_filter o d k tbl :
  List.filter (has_key o d k) (usage_records tbl) = keyed o d k tbl.
Proof. apply List_filter_ext_dec, has_key_spec. Qed.

Lemma trackUsage_lookup_keyed o env tbl d k :
  k ≠ "" → select_error env = None →
  trackUsage_lookup o env tbl d (Some k) = single (keyed o d k tbl).
Proof.
  intros Hk Hs. unfold trackUsage_lookup.
  rewrite (proj2 (truthy_Some k) Hk). unfold select_single.
  by rewrite Hs, keyed_filter.
Qed.

Lemma trackUsage_insert_ok o env tbl d q t key :
  insert_error env = None →
  trackUsage_insert o env tbl d q t key
  = (Ok {| tr_id := next_id tbl; alreadyRecorded := false |},
     {| usage_records :=
          usage_records tbl
          ++ [ {| row_id := next_id tbl; organization_id := o; dimension := d;
                  quantity := q; timestamp := t;
                  stripe_usage_record_id := key |} ];
        next_id := (next_id tbl + 1)%nat |}).
Proof. intros Hi. unfold trackUsage_insert, insert_rows. by rewrite Hi. Qed.

Lemma trackUsage_duplicate o env tbl d q ts k r :
  k ≠ "" → select_error env = None → keyed o d k tbl = [r] →
  trackUsage o env tbl d q ts (Some k)
  = (Ok {| tr_id := row_id r; alreadyRecorded := true |}, tbl).
Proof.
  intros Hk Hs Hr. unfold trackUsage.
  rewrite trackUsage_lookup_keyed by done. by rewrite Hr.
Qed.

Lemma trackUsage_first o env tbl d q ts k :
  k ≠ "" → select_error env = None → insert_error env = None →
  keyed o d k tbl = [] →
  trackUsage o env tbl d q ts (Some k)
  = (Ok {| tr_id := next_id tbl; alreadyRecorded := false |},
     {| usage_records :=
          usage_records tbl
          ++ [ {| row_id := next_id tbl; organization_id := o; dimension := d;
                  quantity := q; timestamp := default (now env) ts;
                  stripe_usage_record_id := Some k |} ];
        next_id := (next_id tbl + 1)%nat |}).
Proof.
  intros Hk Hs Hi Hr. unfold trackUsage.
  rewrite trackUsage_lookup_keyed by done. rewrite Hr. simpl.
  by apply trackUsage_insert_ok.
Qed.

Lemma retry_duplicates o envs tbl d q ts k r :
  k ≠ "" → Forall healthy envs → keyed o d k tbl = [r] →
  retry o envs tbl d q ts (Some k) = tbl.
Proof.
  intros Hk Hh Hr. unfold retry.
  induction Hh as [|env envs [Hs _] _ IH]; [done|].
  simpl. by rewrite (trackUsage_duplicate o env tbl d q ts k r).
Qed.

(** C1, as amended: for a non-empty idempotency key [k] and a store that
    answers, (1) when exactly one record carries the triple
    [(organization, dimension, k)], a further call with key [k] returns that
    record's id with [alreadyRecorded = true] and leaves the table as it is;
    (2) from a table with no record of the triple, any positive number of
    sequential calls with the same arguments appends exactly one record [r]
    carrying the triple, of quantity [q], stamped by the first call, and
    (3) every summary then counts [r] once: the records of a period are those
    of before, followed by [r] when its timestamp lies in the period. *)
Theorem trackUsage_idempotent (o d : string) (q : Z) (ts : option Z)
    (k : string) :
  k ≠ "" →
  (∀ env tbl r,
     select_error env = None → keyed o d k tbl = [r] →
     trackUsage o env tbl d q ts (Some k)
     = (Ok {| tr_id := row_id r; alreadyRecorded := true |}, tbl))
  ∧ (∀ env envs tbl,
       Forall healthy (env :: envs) → keyed o d k tbl = [] →
       let tbl' := retry o (env :: envs) tbl d q ts (Some k) in
       ∃ r,
         usage_records tbl' = usage_records tbl ++ [r]
         ∧ keyed o d k tbl' = [r]
         ∧ quantity r = q ∧ timestamp r = default (now env) ts
         ∧ ∀ s e,
             within_closed o d s e tbl'
             = within_closed o d s e tbl
               ++ (if decide (s ≤ timestamp r ≤ e) then [r] else [])).
Proof.
  intros Hk. split.
  - intros env tbl r Hs Hr. by apply trackUsage_duplicate.
  - intros env envs tbl Hh Hr tbl'.
    apply Forall_cons in Hh as [(Hs & Hi & _) Hh].
    set (r := {| row_id := next_id tbl; organization_id := o; dimension := d;
                 quantity := q; timestamp := default (now env) ts;
                 stripe_usage_record_id := Some k |}).
    set (tbl1 := {| usage_records := usage_records tbl ++ [r];
                    next_id := (next_id tbl + 1)%nat |}).
    assert (Hk1 : keyed o d k tbl1 = [r]).
    { unfold keyed, tbl1. simpl. rewrite filter_app. fold (keyed o d k tbl).
      rewrite Hr. simpl. rewrite filter_cons, decide_True by done. done. }
    assert (Htbl' : tbl' = tbl1).
    { unfold tbl', retry. simpl.
      rewrite (trackUsage_first o env tbl d q ts k) by done.
      fold r. fold tbl1. simpl.
      by apply (retry_duplicates o envs tbl1 d q ts k r). }
    exists r. rewrite Htbl'. split_and!; try done.
    intros s e. unfold within_closed, tbl1. simpl. rewrite filter_app.
    f_equal. rewrite filter_cons. simpl.
    destruct (decide (s ≤ default (now env) ts ≤ e)).
    + by rewrite decide_True.
    + rewrite decide_False; [done|]. intros (_ & _ & ?). done.
Qed.

Lemma trackUsage_idempotent_witness :
  let tbl0 := {| usage_records := []; next_id := 0 |} in
  "key-1" ≠ ""
  ∧ ∃ r, keyed "org-1" "api_calls" "key-1"
           (retry "org-1" [at_time 1; at_time 2; at_time 3] tbl0 "api_calls" 5
              None (Some "key-1")) = [r]
         ∧ quantity r = 5 ∧ timestamp r = 1.
Proof.
  intros tbl0.
  assert (Hk : "key-1" ≠ "") by discriminate.
  split; [exact Hk|].
  destruct (trackUsage_idempotent "org-1" "api_calls" 5 None "key-1" Hk)
    as [_ H].
  destruct (H (at_time 1) [at_time 2; at_time 3] tbl0) as (r & _ & Hr & Hq & Ht & _).
  - repeat constructor.
  - reflexivity.
  - exists r. split; [exact Hr|]. split; [exact Hq | exact Ht].
Defined.

(** C1 as stated fails in two ways.  With the empty string as key, which is
    not null, the guard [if (idempotencyKey)] skips the lookup: the retry
    inserts a second record and the summary counts the quantity twice.  And
    when two records already carry the triple (a bulk insert can write them),
    [.single()] yields no row and a further call inserts a third. *)
Lemma trackUsage_retry_counterexample :
  let tbl0 := {| usage_records := []; next_id := 0 |} in
  let once := retry "org-1" [at_time 1] tbl0 "api_calls" 5 (Some 10) (Some "") in
  let twice :=
    retry "org-1" [at_time 1; at_time 2] tbl0 "api_calls" 5 (Some 10) (Some "") in
  let two :=
    (batchTrackUsage "org-1" (at_time 1) tbl0
       [ {| b_dimension := "api_calls"; b_quantity := 5;
            b_timestamp := Some 10; b_idempotencyKey := Some "key-1" |};
         {| b_dimension := "api_calls"; b_quantity := 5;
            b_timestamp := Some 10; b_idempotencyKey := Some "key-1" |} ]).2 in
  (length (keyed "org-1" "api_calls" "" once) = 1%nat
   ∧ (trackUsage "org-1" (at_time 2) once "api_calls" 5 (Some 10) (Some "")).1
     = Ok {| tr_id := 1; alreadyRecorded := false |}
   ∧ length (keyed "org-1" "api_calls" "" twice) = 2%nat
   ∧ sum_quantity (within_closed "org-1" "api_calls" 0 100 twice) = 10)
  ∧ (length (keyed "org-1" "api_calls" "key-1" two) = 2%nat
     ∧ (trackUsage "org-1" (at_time 2) two "api_calls" 5 (Some 10)
          (Some "key-1")).1
       = Ok {| tr_id := 2; alreadyRecorded := false |}
     ∧ length (keyed "org-1" "api_calls" "key-1"
                 (trackUsage "org-1" (at_time 2) two "api_calls" 5 (Some 10)
                    (Some "key-1")).2) = 3%nat).
Proof. by vm_compute. Qed.

(** ** Negative quantities *)

Lemma trackUsage_no_key o env tbl d q ts :
  insert_error env = None →
  trackUsage o env tbl d q ts None
  = (Ok {| tr_id := next_id tbl; alreadyRecorded := false |},
     {| usage_records :=
          usage_records tbl
          ++ [ {| row_id := next_id tbl; organization_id := o; dimension := d;
                  quantity := q; timestamp := default (now env) ts;
                  stripe_usage_record_id := None |} ];
        next_id := (next_id tbl + 1)%nat |}).
Proof. intros Hi. unfold trackUsage. simpl. by apply trackUsage_insert_ok. Qed.

(** C8, what the code does: [trackUsage] has no check on the sign of
    [quantity].  A call with a negative quantity goes to the store, and when
    the store takes the row the call returns normally and the table holds a
    record with that negative quantity, unclamped. *)
Theorem trackUsage_writes_negative_quantity o env tbl d q ts :
  q < 0 → insert_error env = None →
  ∃ r tbl',
    trackUsage o env tbl d q ts None
    = (Ok {| tr_id := row_id r; alreadyRecorded := false |}, tbl')
    ∧ usage_records tbl' = usage_records tbl ++ [r]
    ∧ quantity r = q.
Proof.
  intros _ Hi. rewrite trackUsage_no_key by done.
  exists {| row_id := next_id tbl; organization_id := o; dimension := d;
            quantity := q; timestamp := default (now env) ts;
            stripe_usage_record_id := None |}.
  eexists. split; [reflexivity|]. done.
Qed.

Lemma trackUsage_writes_negative_quantity_witness :
  ∃ r tbl',
    trackUsage "org-1" (at_time 1) {| usage_records := []; next_id := 0 |}
      "api_calls" (-5) None None
    = (Ok {| tr_id := row_id r; alreadyRecorded := false |}, tbl')
    ∧ usage_records tbl' = [r]
    ∧ quantity r = -5.
Proof.
  apply (trackUsage_writes_negative_quantity "org-1" (at_time 1)
           {| usage_records := []; next_id := 0 |} "api_calls" (-5) None);
    [lia | reflexivity].
Defined.

(** The route [report-usage], by contrast, answers 400 to a negative quantity
    before it calls the provider or the store. *)
Lemma report_usage_POST_rejects_negative cfg access env w b q :
  usage_quantity b = Some q → q < 0 →
  ∃ msg, report_usage_POST cfg access env w (Some b)
         = (json (JsonError msg) 400, w).
Proof.
  intros Hq Hneg. unfold report_usage_POST. rewrite Hq.
  destruct (usage_organizationId b) as [o|]; [|by eexists].
  destruct (usage_dimension b) as [d|]; [|by eexists].
  destruct (negb (truthy (Some o)) || negb (truthy (Some d))); [by eexists|].
  apply Z.ltb_lt in Hneg. rewrite Hneg. by eexists.
Qed.

(** ** Bulk insert *)

Lemma stored_from_length n rs : length (stored_from n rs) = length rs.
Proof. revert n. induction rs as [|r rs IH]; intros n; simpl; [done|]. by rewrite IH. Qed.

Lemma stored_from_keys n rs :
  stripe_usage_record_id <$> stored_from n rs = ins_stripe_usage_record_id <$> rs.
Proof.
  revert n. induction rs as [|r rs IH]; intros n; csimpl; [done|].
  by rewrite IH.
Qed.

(** With a store that takes the statement, every item of the list becomes a
    new record, whatever its key and whatever the table holds. *)
Lemma batchTrackUsage_inserts_all o env tbl items :
  insert_error env = None →
  ∃ data tbl',
    batchTrackUsage o env tbl items = (Ok data, tbl')
    ∧ usage_records tbl' = usage_records tbl ++ data
    ∧ length data = length items
    ∧ stripe_usage_record_id <$> data = b_idempotencyKey <$> items.
Proof.
  intros Hi. unfold batchTrackUsage, insert_rows. rewrite Hi.
  eexists _, _. split; [reflexivity|]. simpl. split_and!; [done|..].
  - by rewrite stored_from_length, length_fmap.
  - rewrite stored_from_keys, <- list_fmap_compose. done.
Qed.

(** When the store refuses the statement, no item is written and the call
    throws; there is no outcome per item. *)
Lemma batchTrackUsage_all_or_nothing o env tbl items msg :
  insert_error env = Some msg →
  batchTrackUsage o env tbl items
  = (Throw ("Failed to batch track usage: " +:+ msg), tbl).
Proof. intros Hi. unfold batchTrackUsage, insert_rows. by rewrite Hi. Qed.

(** C9, what the code does: the bulk insert makes no duplicate check.  Where
    the table already holds the record of key ["key-1"], [trackUsage] with
    that key returns the record and writes nothing, while [batchTrackUsage]
    of one item with that key writes a second record of the same triple. *)
Theorem batchTrackUsage_writes_duplicate :
  let tbl :=
    {| usage_records :=
         [ {| row_id := 0; organization_id := "org-1"; dimension := "api_calls";
              quantity := 5; timestamp := 10;
              stripe_usage_record_id := Some "key-1" |} ];
       next_id := 1 |} in
  trackUsage "org-1" (at_time 20) tbl "api_calls" 5 (Some 10) (Some "key-1")
  = (Ok {| tr_id := 0; alreadyRecorded := true |}, tbl)
  ∧ ∃ data tbl',
      batchTrackUsage "org-1" (at_time 20) tbl
        [ {| b_dimension := "api_calls"; b_quantity := 5;
             b_timestamp := Some 10; b_idempotencyKey := Some "key-1" |} ]
      = (Ok data, tbl')
      ∧ length data = 1%nat
      ∧ length (keyed "org-1" "api_calls" "key-1" tbl') = 2%nat
      ∧ sum_quantity (within_closed "org-1" "api_calls" 0 100 tbl') = 10.
Proof.
  split; [reflexivity|]. eexists _, _. split; [reflexivity|]. by vm_compute.
Qed.

(** ** Calls in flight *)

(** A call that runs its two store calls without another request in between
    is [trackUsage]. *)
Lemma task_alone o env tbl a :
  let '(t1, tbl1) := task_step o env tbl (Called a) in
  task_step o env tbl1 t1
  = let '(r, tbl') :=
      trackUsage o env tbl (a_dimension a) (a_quantity a) (a_timestamp a)
        (a_idempotencyKey a) in
    (Returned r, tbl').
Proof.
  unfold task_step, trackUsage.
  destruct (trackUsage_lookup o env tbl (a_dimension a) (a_idempotencyKey a));
    [done|].
  by destruct (trackUsage_insert _ _ _ _ _ _ _).
Qed.

Lemma trackUsage_lookup_none o env tbl d k :
  keyed o d k tbl = [] → trackUsage_lookup o env tbl d (Some k) = None.
Proof.
  intros Hr. unfold trackUsage_lookup, select_single.
  destruct (truthy (Some k)); [|done].
  destruct (select_error env); [done|]. by rewrite keyed_filter, Hr.
Qed.

Lemma keyed_snoc o d k l n m r :
  keyed o d k {| usage_records := l ++ [r]; next_id := n |}
  = keyed o d k {| usage_records := l; next_id := m |}
    ++ (if decide (organization_id r = o ∧ dimension r = d
                   ∧ stripe_usage_record_id r = Some k)
        then [r] else []).
Proof.
  unfold keyed. simpl. by rewrite filter_app.
Qed.

Lemma turn_first_looks o env a s tbl :
  trackUsage_lookup o env tbl (a_dimension a) (a_idempotencyKey a) = None →
  turn_step o env FirstCall
    {| first_call := Called a; second_call := s; table := tbl |}
  = {| first_call := Looked a (default (now env) (a_timestamp a));
       second_call := s; table := tbl |}.
Proof. intros H. unfold turn_step, task_step. simpl. by rewrite H. Qed.

Lemma turn_second_looks o env a f tbl :
  trackUsage_lookup o env tbl (a_dimension a) (a_idempotencyKey a) = None →
  turn_step o env SecondCall
    {| first_call := f; second_call := Called a; table := tbl |}
  = {| first_call := f;
       second_call := Looked a (default (now env) (a_timestamp a));
       table := tbl |}.
Proof. intros H. unfold turn_step, task_step. simpl. by rewrite H. Qed.

Lemma turn_second_finds o env a f tbl r :
  trackUsage_lookup o env tbl (a_dimension a) (a_idempotencyKey a) = Some r →
  turn_step o env SecondCall
    {| first_call := f; second_call := Called a; table := tbl |}
  = {| first_call := f;
       second_call :=
         Returned (Ok {| tr_id := row_id r; alreadyRecorded := true |});
       table := tbl |}.
Proof. intros H. unfold turn_step, task_step. simpl. by rewrite H. Qed.

Lemma turn_first_inserts o env a t s tbl :
  insert_error env = None →
  turn_step o env FirstCall
    {| first_call := Looked a t; second_call := s; table := tbl |}
  = {| first_call :=
         Returned (Ok {| tr_id := next_id tbl; alreadyRecorded := false |});
       second_call := s;
       table :=
         {| usage_records :=
              usage_records tbl
              ++ [ {| row_id := next_id tbl; organization_id := o;
                      dimension := a_dimension a; quantity := a_quantity a;
                      timestamp := t;
                      stripe_usage_record_id := a_idempotencyKey a |} ];
            next_id := (next_id tbl + 1)%nat |} |}.
Proof.
  intros H. unfold turn_step, task_step. simpl.
  by rewrite trackUsage_insert_ok.
Qed.

Lemma turn_second_inserts o env a t f tbl :
  insert_error env = None →
  turn_step o env SecondCall
    {| first_call := f; second_call := Looked a t; table := tbl |}
  = {| first_call := f;
       second_call :=
         Returned (Ok {| tr_id := next_id tbl; alreadyRecorded := false |});
       table :=
         {| usage_records :=
              usage_records tbl
              ++ [ {| row_id := next_id tbl; organization_id := o;
                      dimension := a_dimension a; quantity := a_quantity a;
                      timestamp := t;
                      stripe_usage_record_id := a_idempotencyKey a |} ];
            next_id := (next_id tbl + 1)%nat |} |}.
Proof.
  intros H. unfold turn_step, task_step. simpl.
  by rewrite trackUsage_insert_ok.
Qed.

Lemma turn_second_returned o env f r tbl :
  turn_step o env SecondCall
    {| first_call := f; second_call := Returned r; table := tbl |}
  = {| first_call := f; second_call := Returned r; table := tbl |}.
Proof. reflexivity. Qed.

(** One call after the other: the second finds the record of the first. *)
Lemma sequential_calls_insert_once o env tbl d q ts k :
  k ≠ "" → select_error env = None → insert_error env = None →
  keyed o d k tbl = [] →
  let a := {| a_dimension := d; a_quantity := q; a_timestamp := ts;
              a_idempotencyKey := Some k |} in
  let st := run_schedule o env [FirstCall; FirstCall; SecondCall; SecondCall]
              {| first_call := Called a; second_call := Called a;
                 table := tbl |} in
  inserted (first_call st) = true
  ∧ inserted (second_call st) = false
  ∧ length (keyed o d k (table st)) = 1%nat.
Proof.
  intros Hk Hs Hi Hr a st. destruct tbl as [l n]. unfold st, run_schedule.
  cbn [foldl].
  rewrite turn_first_looks by by apply trackUsage_lookup_none.
  rewrite turn_first_inserts by done.
  cbn [usage_records next_id a_dimension a_quantity a_idempotencyKey].
  set (r := {| row_id := _ |}).
  assert (Hk1 : keyed o d k {| usage_records := l ++ [r];
                              next_id := (n + 1)%nat |} = [r]).
  { rewrite (keyed_snoc _ _ _ _ _ n), Hr. simpl. by rewrite decide_True. }
  rewrite (turn_second_finds _ _ _ _ _ r).
  2:{ unfold a. cbn [a_dimension a_idempotencyKey].
      rewrite trackUsage_lookup_keyed by done. by rewrite Hk1. }
  rewrite turn_second_returned. cbn [first_call second_call table].
  by rewrite Hk1.
Qed.

(** C10, what the code does: the lookup and the insert are two store calls.
    When two calls with the same key are in flight and both lookups run
    before either insert, both calls find no record, both insert, and the
    table ends with two records of the triple. *)
Theorem interleaved_calls_both_insert o env tbl d q ts k :
  insert_error env = None → keyed o d k tbl = [] →
  let a := {| a_dimension := d; a_quantity := q; a_timestamp := ts;
              a_idempotencyKey := Some k |} in
  let st := run_schedule o env [FirstCall; SecondCall; FirstCall; SecondCall]
              {| first_call := Called a; second_call := Called a;
                 table := tbl |} in
  inserted (first_call st) = true
  ∧ inserted (second_call st) = true
  ∧ length (keyed o d k (table st)) = 2%nat.
Proof.
  intros Hi Hr a st. destruct tbl as [l n]. unfold st, run_schedule.
  cbn [foldl].
  rewrite turn_first_looks by by apply trackUsage_lookup_none.
  rewrite turn_second_looks by by apply trackUsage_lookup_none.
  rewrite turn_first_inserts by done.
  rewrite turn_second_inserts by done.
  simpl. split_and!; try done.
  rewrite (keyed_snoc _ _ _ _ _ n), (keyed_snoc _ _ _ _ _ n), Hr.
  simpl. by rewrite !decide_True.
Qed.

Lemma interleaved_calls_both_insert_witness :
  let a := {| a_dimension := "api_calls"; a_quantity := 1;
              a_timestamp := Some 10; a_idempotencyKey := Some "key-1" |} in
  let st := run_schedule "org-1" (at_time 20)
              [FirstCall; SecondCall; FirstCall; SecondCall]
              {| first_call := Called a; second_call := Called a;
                 table := {| usage_records := []; next_id := 0 |} |} in
  inserted (first_call st) = true
  ∧ inserted (second_call st) = true
  ∧ length (keyed "org-1" "api_calls" "key-1" (table st)) = 2%nat.
Proof.
  apply (interleaved_calls_both_insert "org-1" (at_time 20)
           {| usage_records := []; next_id := 0 |} "api_calls" 1 (Some 10)
           "key-1"); reflexivity.
Defined.

(** ** The webhook *)

Lemma find_first_such {A} (f : A → bool) (l : list A) (x : A) :
  List.find f l = Some x ↔ first_such (λ y, f y = true) l x.
Proof.
  split.
  - induction l as [|y l IH]; [done|]. simpl. destruct (f y) eqn:E.
    + intros [= ->]. exists [], l. by split_and!.
    + intros H. destruct (IH H) as (pre & post & -> & Hpre & Hx).
      exists (y :: pre), post. split_and!; [done| |done].
      constructor; [congruence|done].
  - intros (pre & post & -> & Hpre & Hx).
    induction Hpre as [|y pre Hy _ IH]; simpl.
    + by rewrite Hx.
    + destruct (f y); [done|exact IH].
Qed.

Lemma find_none_Forall {A} (f : A → bool) (l : list A) :
  List.find f l = None ↔ Forall (λ y, f y = false) l.
Proof.
  induction l as [|y l IH]; simpl.
  - split; [constructor|done].
  - destruct (f y) eqn:E.
    + split; [done|]. intros H. apply Forall_cons in H as [? _]. congruence.
    + rewrite IH. split; [by constructor|]. by intros [_ ?]%Forall_cons.
Qed.

Lemma first_such_iff {A} (P Q : A → Prop) (l : list A) (x : A) :
  (∀ y, P y ↔ Q y) → first_such P l x → first_such Q l x.
Proof.
  intros HPQ (pre & post & -> & Hpre & Hx). exists pre, post.
  split_and!; [done| |by apply HPQ].
  eapply Forall_impl; [exact Hpre|]. intros y Hy HQ. by apply Hy, HPQ.
Qed.

Section WebhookProperties.

Variable cfg : StripeConfig.
Variable constructEvent : string → string → string → option Event.
Variable secret : string.

Abbreviation POST := (webhook_POST cfg constructEvent secret).

Lemma webhook_POST_signed env w request event :
  signed constructEvent secret request event →
  POST env w request = (json JsonReceived 200, dispatch cfg env w event).
Proof.
  intros (sig & Hsig & Hne & Hev). unfold webhook_POST.
  rewrite Hsig, (proj2 (truthy_Some sig) Hne). by rewrite Hev.
Qed.

(** C3: when the signature header is missing, empty, or does not verify
    against the signing secret, the handler answers 400 and the provider
    state, the usage table and the organizations are what they were; the only
    trace is the console line of the failed verification, and the outcome is
    the same under every clock and store reply, which only the dispatched
    handlers read. *)
Theorem webhook_POST_rejects_unsigned env w request :
  unsigned constructEvent secret request →
  ∃ msg w',
    POST env w request = (json (JsonError msg) 400, w')
    ∧ stripe w' = stripe w ∧ usage w' = usage w
    ∧ organizations w' = organizations w
    ∧ (w' = w ∨ w' = log "Webhook signature verification failed:" w)
    ∧ ∀ env', POST env' w request = POST env w request.
Proof.
  unfold unsigned, webhook_POST. intros H.
  destruct (stripe_signature request) as [sig|].
  - destruct (truthy (Some sig)) eqn:Et.
    + destruct H as [->|H]; [done|]. rewrite H.
      eexists _, _. split; [reflexivity|]. split_and!; auto.
    + eexists _, _. split; [reflexivity|]. split_and!; auto.
  - eexists _, _. split; [reflexivity|]. split_and!; auto.
Qed.

(** What the handlers do to the table. *)
Lemma update_organization_lookup env u oid w o :
  update_error env = None → organizations w !! oid = Some o →
  organizations (update_organization env u oid w) !! oid
  = Some (apply_update u o).
Proof.
  intros Hu Ho. unfold update_organization. rewrite Hu. simpl.
  by rewrite lookup_alter_eq, Ho.
Qed.

Lemma update_organization_other env u oid w oid' :
  oid' ≠ oid →
  organizations (update_organization env u oid w) !! oid'
  = organizations w !! oid'.
Proof.
  intros Hne. unfold update_organization.
  destruct (update_error env); [done|]. simpl.
  by rewrite lookup_alter_ne.
Qed.

Lemma organizations_log line w : organizations (log line w) = organizations w.
Proof. done. Qed.

(** C5: a signed [invoice.payment_failed] event whose invoice metadata names
    an organization of the table sets that organization's
    [subscription_status] to ["past_due"]; its plan, seat count, subscription
    id and customer id keep their values, and no other organization
    changes. *)
Theorem payment_failed_sets_past_due env w request invoice m oid o :
  signed constructEvent secret request (InvoicePaymentFailed invoice) →
  invoice_metadata invoice = Some m → m !! "organization_id" = Some oid →
  oid ≠ "" → update_error env = None → organizations w !! oid = Some o →
  ∃ o',
    organizations (POST env w request).2 !! oid = Some o'
    ∧ subscription_status o' = Some "past_due"
    ∧ subscription_plan o' = subscription_plan o
    ∧ seat_count o' = seat_count o
    ∧ stripe_subscription_id o' = stripe_subscription_id o
    ∧ stripe_customer_id o' = stripe_customer_id o
    ∧ ∀ oid', oid' ≠ oid →
        organizations (POST env w request).2 !! oid' = organizations w !! oid'.
Proof.
  intros Hsig Hm Hoid Hne Hu Ho.
  rewrite (webhook_POST_signed _ _ _ _ Hsig). simpl.
  unfold handleInvoicePaymentFailed. rewrite Hm. simpl. rewrite Hoid.
  rewrite (proj2 (truthy_Some oid) Hne). rewrite organizations_log.
  eexists. split; [by apply update_organization_lookup|].
  split_and!; try done.
  intros oid' Hne'. by apply update_organization_other.
Qed.

Lemma is_per_seat_spec it :
  is_per_seat cfg it = true ↔ price_id it = perSeatPriceId cfg.
Proof. apply eqb_true. Qed.

Lemma is_base_spec it :
  is_base cfg it = true
  ↔ price_id it ≠ perSeatPriceId cfg ∧ price_id it ≠ meteredUsagePriceId cfg.
Proof.
  unfold is_base. rewrite andb_true_iff, !negb_true_iff.
  by rewrite <- !not_true_iff_false, !eqb_true.
Qed.

Lemma seatCount_of_first subscription it :
  first_such (λ it, price_id it = perSeatPriceId cfg) (sub_items subscription) it →
  seatCount_of cfg subscription = default 0 (item_quantity it).
Proof.
  intros H. unfold seatCount_of.
  assert (List.find (is_per_seat cfg) (sub_items subscription) = Some it) as ->;
    [|done].
  apply find_first_such. eapply first_such_iff; [|exact H].
  intros y. symmetry. apply is_per_seat_spec.
Qed.

Lemma seatCount_of_absent subscription :
  Forall (λ it, price_id it ≠ perSeatPriceId cfg) (sub_items subscription) →
  seatCount_of cfg subscription = 0.
Proof.
  intros H. unfold seatCount_of.
  assert (List.find (is_per_seat cfg) (sub_items subscription) = None) as ->;
    [|done].
  apply find_none_Forall. eapply Forall_impl; [exact H|].
  intros y Hy. apply not_true_iff_false. by rewrite is_per_seat_spec.
Qed.

Lemma find_base subscription b :
  first_such (λ it, price_id it ≠ perSeatPriceId cfg
                    ∧ price_id it ≠ meteredUsagePriceId cfg)
    (sub_items subscription) b →
  List.find (is_base cfg) (sub_items subscription) = Some b.
Proof.
  intros H. apply find_first_such. eapply first_such_iff; [|exact H].
  intros y. symmetry. apply is_base_spec.
Qed.

Lemma subscriptionPlan_of_known subscription b key pid :
  first_such (λ it, price_id it ≠ perSeatPriceId cfg
                    ∧ price_id it ≠ meteredUsagePriceId cfg)
    (sub_items subscription) b →
  first_such (λ kv, kv.2 = price_id b) (plans cfg) (key, pid) →
  subscriptionPlan_of cfg subscription = Some key.
Proof.
  intros Hb Hk. unfold subscriptionPlan_of. rewrite (find_base _ _ Hb).
  assert (List.find (λ kv, String.eqb kv.2 (price_id b)) (plans cfg)
          = Some (key, pid)) as Hf.
  { apply find_first_such. eapply first_such_iff; [|exact Hk].
    intros y. symmetry. apply eqb_true. }
  rewrite Hf. apply List.find_some in Hf as [Hin _].
  unfold plans in Hin. simpl in Hin.
  destruct Hin as [[= <- _]|[[= <- _]|[[= <- _]|[]]]]; done.
Qed.

Lemma subscriptionPlan_of_unknown subscription b :
  first_such (λ it, price_id it ≠ perSeatPriceId cfg
                    ∧ price_id it ≠ meteredUsagePriceId cfg)
    (sub_items subscription) b →
  Forall (λ kv, kv.2 ≠ price_id b) (plans cfg) →
  subscriptionPlan_of cfg subscription = None.
Proof.
  intros Hb Hk. unfold subscriptionPlan_of. rewrite (find_base _ _ Hb).
  assert (List.find (λ kv, String.eqb kv.2 (price_id b)) (plans cfg) = None)
    as ->; [|done].
  apply find_none_Forall. eapply Forall_impl; [exact Hk|].
  intros y Hy. apply not_true_iff_false. by rewrite eqb_true.
Qed.

Lemma subscriptionPlan_of_no_base subscription :
  Forall (λ it, price_id it = perSeatPriceId cfg
                ∨ price_id it = meteredUsagePriceId cfg)
    (sub_items subscription) →
  subscriptionPlan_of cfg subscription = None.
Proof.
  intros H. unfold subscriptionPlan_of.
  assert (List.find (is_base cfg) (sub_items subscription) = None) as ->;
    [|done].
  apply find_none_Forall. eapply Forall_impl; [exact H|].
  intros y Hy. apply not_true_iff_false. rewrite is_base_spec.
  intros [? ?]. by destruct Hy.
Qed.

(** C2, as amended: a signed subscription created or updated event whose
    metadata carries the id of an organization of the table writes a snapshot
    in which
    [subscription_status] is the subscription's status; [seat_count] is the
    quantity of the first line item priced at the per-seat price (0 when that
    item has no quantity), or 0 when no item has that price; and
    [subscription_plan] is the plan key configured with the price of the
    first line item that is neither per-seat nor metered, or null when that
    price belongs to no plan or when there is no such item. *)
Theorem subscription_event_snapshot env w request event subscription oid o :
  signed constructEvent secret request event →
  event = CustomerSubscriptionCreated subscription
  ∨ event = CustomerSubscriptionUpdated subscription →
  sub_metadata subscription !! "organization_id" = Some oid → oid ≠ "" →
  update_error env = None → organizations w !! oid = Some o →
  ∃ o',
    organizations (POST env w request).2 !! oid = Some o'
    ∧ subscription_status o' = Some (sub_status subscription)
    ∧ (∀ it, first_such (λ it, price_id it = perSeatPriceId cfg)
               (sub_items subscription) it →
             seat_count o' = default 0 (item_quantity it))
    ∧ (Forall (λ it, price_id it ≠ perSeatPriceId cfg) (sub_items subscription) →
       seat_count o' = 0)
    ∧ (∀ b, first_such (λ it, price_id it ≠ perSeatPriceId cfg
                              ∧ price_id it ≠ meteredUsagePriceId cfg)
              (sub_items subscription) b →
            (∀ key pid,
               first_such (λ kv, kv.2 = price_id b) (plans cfg) (key, pid) →
               subscription_plan o' = Some key)
            ∧ (Forall (λ kv, kv.2 ≠ price_id b) (plans cfg) →
               subscription_plan o' = None))
    ∧ (Forall (λ it, price_id it = perSeatPriceId cfg
                     ∨ price_id it = meteredUsagePriceId cfg)
         (sub_items subscription) →
       subscription_plan o' = None).
Proof.
  intros Hsig Hev Hoid Hne Hu Ho.
  rewrite (webhook_POST_signed _ _ _ _ Hsig).
  assert (dispatch cfg env w event = handleSubscriptionUpdate cfg env w subscription)
    as -> by (by destruct Hev as [-> | ->]).
  unfold handleSubscriptionUpdate. rewrite Hoid.
  rewrite (proj2 (truthy_Some oid) Hne). simpl.
  eexists. split; [by apply update_organization_lookup|]. simpl.
  split_and!.
  - done.
  - apply seatCount_of_first.
  - apply seatCount_of_absent.
  - intros b Hb. split.
    + intros key pid. by apply subscriptionPlan_of_known.
    + by apply subscriptionPlan_of_unknown.
  - apply subscriptionPlan_of_no_base.
Qed.

(** Re-delivery. *)
Lemma alter_twice {A} (f1 f2 : A → A) (i : string) (m : gmap string A) :
  (∀ x, f2 (f1 x) = f2 x) → alter f2 i (alter f1 i m) = alter f2 i m.
Proof.
  intros H. apply map_eq. intros j. destruct (decide (i = j)) as [->|Hne].
  - rewrite !lookup_alter_eq. destruct (m !! j); simpl; [by rewrite H|done].
  - by rewrite !lookup_alter_ne.
Qed.




End WebhookProperties.

(** ** The webhook on the sample data *)

Lemma webhook_POST_rejects_unsigned_witness :
  ∃ msg w',
    webhook_POST sample_cfg
      (sample_constructEvent (CustomerSubscriptionUpdated sample_subscription))
      "whsec_1" (at_time 1) sample_world forged_request
    = (json (JsonError msg) 400, w')
    ∧ organizations w' = organizations sample_world.
Proof.
  destruct (webhook_POST_rejects_unsigned sample_cfg
              (sample_constructEvent (CustomerSubscriptionUpdated sample_subscription))
              "whsec_1" (at_time 1) sample_world forged_request)
    as (msg & w' & H & _ & _ & Ho & _).
  - right. reflexivity.
  - exists msg, w'. split; [exact H | exact Ho].
Defined.

Lemma payment_failed_sets_past_due_witness :
  ∃ o',
    organizations
      (webhook_POST sample_cfg
         (sample_constructEvent (InvoicePaymentFailed sample_invoice))
         "whsec_1" (at_time 7) sample_world sample_request).2 !! "org-1"
    = Some o'
    ∧ subscription_status o' = Some "past_due"
    ∧ subscription_plan o' = Some "starter"
    ∧ seat_count o' = 2.
Proof.
  destruct (payment_failed_sets_past_due sample_cfg
              (sample_constructEvent (InvoicePaymentFailed sample_invoice))
              "whsec_1" (at_time 7) sample_world sample_request sample_invoice
              {[ "organization_id" := "org-1" ]} "org-1" sample_organization)
    as (o' & Ho & Hst & Hpl & Hse & _).
  - exists "whsec_1{}". split; [reflexivity|]. split; [discriminate|reflexivity].
  - reflexivity.
  - reflexivity.
  - discriminate.
  - reflexivity.
  - reflexivity.
  - exists o'. split; [exact Ho|]. split; [exact Hst|].
    split; [exact Hpl | exact Hse].
Defined.

Lemma subscription_event_snapshot_witness :
  ∃ o',
    organizations
      (webhook_POST sample_cfg
         (sample_constructEvent (CustomerSubscriptionUpdated sample_subscription))
         "whsec_1" (at_time 7) sample_world sample_request).2 !! "org-1"
    = Some o'
    ∧ subscription_status o' = Some "active"
    ∧ seat_count o' = 3
    ∧ subscription_plan o' = Some "pro".
Proof.
  destruct (subscription_event_snapshot sample_cfg
              (sample_constructEvent (CustomerSubscriptionUpdated sample_subscription))
              "whsec_1" (at_time 7) sample_world sample_request
              (CustomerSubscriptionUpdated sample_subscription)
              sample_subscription "org-1" sample_organization)
    as (o' & Ho & Hst & Hseat & _ & Hplan & _).
  - exists "whsec_1{}". split; [reflexivity|]. split; [discriminate|reflexivity].
  - right. reflexivity.
  - reflexivity.
  - discriminate.
  - reflexivity.
  - reflexivity.
  - exists o'. split; [exact Ho|]. split; [exact Hst|]. split.
    + apply (Hseat {| item_id := "si_b"; price_id := "price_per_seat";
                      item_quantity := Some 3 |}).
      exists [ {| item_id := "si_a"; price_id := "price_pro";
                  item_quantity := Some 1 |} ], [].
      split; [reflexivity|]. split; [|reflexivity].
      constructor; [discriminate|constructor].
    + destruct (Hplan {| item_id := "si_a"; price_id := "price_pro";
                         item_quantity := Some 1 |}) as [Hk _].
      * exists [], [ {| item_id := "si_b"; price_id := "price_per_seat";
                        item_quantity := Some 3 |} ].
        split; [reflexivity|]. split; [constructor|].
        split; discriminate.
      * apply (Hk "pro" "price_pro").
        exists [ ("starter", "price_starter") ],
               [ ("enterprise", "price_enterprise") ].
        split; [reflexivity|]. split; [|reflexivity].
        constructor; [discriminate|constructor].
Defined.

(** C2 as stated fails: the plan is read off the first item that is neither
    per-seat nor metered, and off no other.  The subscription below has an
    add-on at a price no plan is configured with, then the pro plan, then
    the seats: an item that is neither per-seat nor metered matches the
    known plan "pro", and the snapshot written has no plan. *)
Lemma subscription_plan_of_later_base_item :
  let pro := {| item_id := "si_a"; price_id := "price_pro";
                item_quantity := Some 1 |} in
  let w' :=
    (webhook_POST sample_cfg
       (sample_constructEvent (CustomerSubscriptionUpdated addon_subscription))
       "whsec_1" (at_time 7) sample_world sample_request).2 in
  pro ∈ sub_items addon_subscription
  ∧ price_id pro ≠ perSeatPriceId sample_cfg
  ∧ price_id pro ≠ meteredUsagePriceId sample_cfg
  ∧ ("pro", price_id pro) ∈ plans sample_cfg
  ∧ subscription_plan <$> organizations w' !! "org-1" = Some None
  ∧ seat_count <$> organizations w' !! "org-1" = Some 3
  ∧ subscription_status <$> organizations w' !! "org-1" = Some (Some "active").
Proof.
  split_and!; try discriminate; try (by vm_compute).
  - apply list_elem_of_further, list_elem_of_here.
  - apply list_elem_of_further, list_elem_of_here.
Qed.



(** ** Seats *)

Section Seats.

Variable cfg : StripeConfig.

Lemma subscriptions_retrieve_ok p sid s :
  subscriptions p !! sid = Some s →
  subscriptions_retrieve p sid = (Ok s, received (SubscriptionsRetrieve sid) p).
Proof. intros H. unfold subscriptions_retrieve. simpl. by rewrite H. Qed.

Lemma find_filter_head (l : list SubscriptionItem) old :
  List.find (is_per_seat cfg) l = Some old →
  ∃ rest, filter (λ it, price_id it = perSeatPriceId cfg) l = old :: rest.
Proof.
  induction l as [|x l IH]; [done|]. simpl. rewrite filter_cons.
  destruct (is_per_seat cfg x) eqn:E.
  - intros [= ->]. apply eqb_true in E. rewrite decide_True by done. eauto.
  - intros H. rewrite decide_False; [by apply IH|].
    intros Hx. apply eqb_true in Hx. unfold is_per_seat in E. congruence.
Qed.

Lemma find_filter_nil (l : list SubscriptionItem) :
  List.find (is_per_seat cfg) l = None ↔
  filter (λ it, price_id it = perSeatPriceId cfg) l = [].
Proof.
  rewrite find_none_Forall. induction l as [|x l IH]; [by split; [|constructor]|].
  rewrite filter_cons, Forall_cons. unfold is_per_seat at 1.
  destruct (decide (price_id x = perSeatPriceId cfg)) as [Hx|Hx].
  - split; [|done]. intros [E _]. apply eqb_true in Hx.
    unfold is_per_seat in *. congruence.
  - rewrite <- IH. split; [by intros [_ ?]|]. intros H. split; [|done].
    apply not_true_iff_false. by rewrite eqb_true.
Qed.

Lemma per_seat_singleton s old :
  (length (per_seat_items cfg s) ≤ 1)%nat →
  List.find (is_per_seat cfg) (sub_items s) = Some old →
  per_seat_items cfg s = [old].
Proof.
  intros Hlen Hf. destruct (find_filter_head _ _ Hf) as [rest Hr].
  unfold per_seat_items in *. rewrite Hr in *.
  destruct rest; [done|]. simpl in Hlen. lia.
Qed.

Lemma filter_set_quantity i q (l : list SubscriptionItem) :
  filter (λ it, price_id it = perSeatPriceId cfg) (set_quantity i q <$> l)
  = set_quantity i q
      <$> filter (λ it, price_id it = perSeatPriceId cfg) l.
Proof.
  induction l as [|x l IH]; [done|]. csimpl. rewrite !filter_cons.
  assert (price_id (set_quantity i q x) = price_id x) as Hp.
  { unfold set_quantity. by destruct (String.eqb _ _). }
  rewrite Hp. case_decide; csimpl; by rewrite IH.
Qed.

Lemma set_quantity_self q it :
  set_quantity (item_id it) q it = with_quantity q it.
Proof. unfold set_quantity. by rewrite String.eqb_refl. Qed.

Lemma set_quantity_other i q it :
  item_id it ≠ i → set_quantity i q it = it.
Proof.
  intros H. unfold set_quantity.
  destruct (String.eqb (item_id it) i) eqn:E; [|done].
  by apply eqb_true in E.
Qed.

Lemma owns_item_elem s it : it ∈ sub_items s → owns_item (item_id it) s = true.
Proof.
  intros Hin. unfold owns_item. apply existsb_exists.
  exists it. split; [by apply list_elem_of_In|]. apply String.eqb_refl.
Qed.

(** A present per-seat item has its quantity set by one
    [subscriptionItems.update]. *)
Lemma updateSubscriptionSeats_present p sid s n old :
  subscriptions p !! sid = Some s → 0 ≤ n →
  List.find (is_per_seat cfg) (sub_items s) = Some old →
  ∃ p',
    updateSubscriptionSeats cfg p sid n = (Ok (), p')
    ∧ subscriptions p' !! sid
      = Some (with_items (set_quantity (item_id old) n <$> sub_items s) s)
    ∧ calls p'
      = calls p ++ [ SubscriptionsRetrieve sid;
                     SubscriptionItemsUpdate (item_id old) n ].
Proof.
  intros Hs Hn Hf. unfold updateSubscriptionSeats.
  rewrite (subscriptions_retrieve_ok _ _ _ Hs), Hf.
  unfold subscriptionItems_update.
  assert ((n <? 0) = false) as Hnn by lia.
  rewrite Hnn.
  rewrite bool_decide_eq_true_2.
  - eexists. split; [reflexivity|]. simpl. split.
    + by rewrite lookup_fmap, Hs.
    + by rewrite <- app_assoc.
  - exists sid, s. split; [done|]. apply owns_item_elem.
    apply List.find_some in Hf as [Hin _]. by apply list_elem_of_In.
Qed.

Lemma same_id_same_item (l : list SubscriptionItem) x y :
  NoDup (item_id <$> l) → x ∈ l → y ∈ l → item_id x = item_id y → x = y.
Proof.
  induction l as [|z l IH]; csimpl; [by intros _ ?%elem_of_nil|].
  intros [Hz Hnd]%NoDup_cons [->|Hx]%elem_of_cons [->|Hy]%elem_of_cons Hid;
    try done.
  - exfalso. apply Hz. rewrite Hid. by apply list_elem_of_fmap_2.
  - exfalso. apply Hz. rewrite <- Hid. by apply list_elem_of_fmap_2.
  - by apply IH.
Qed.

Lemma apply_param_same k (l : list SubscriptionItem) it :
  NoDup (item_id <$> l) → it ∈ l → apply_param k l (param_of it) = l.
Proof.
  intros Hnd Hin. unfold apply_param. simpl.
  rewrite <- (list_fmap_id l) at 2. apply list_fmap_ext.
  intros j x Hx. destruct (String.eqb (item_id x) (item_id it)) eqn:E; [|done].
  apply eqb_true in E.
  assert (x = it) as ->.
  { eapply same_id_same_item; [done| |done|done].
    by eapply list_elem_of_lookup_2. }
  destruct it as [i pr [q|]]; done.
Qed.

Lemma foldl_params_same k (l l' : list SubscriptionItem) :
  NoDup (item_id <$> l) → l' ⊆ l →
  foldl (apply_param k) l (param_of <$> l') = l.
Proof.
  intros Hnd. induction l' as [|it l' IH]; intros Hsub; csimpl; [done|].
  rewrite apply_param_same; [|done|apply Hsub; by left].
  apply IH. intros x Hx. apply Hsub. by right.
Qed.

Lemma no_negative_params (l : list SubscriptionItem) :
  Forall (λ it, ∀ q, item_quantity it = Some q → 0 ≤ q) l →
  existsb negative_quantity (param_of <$> l) = false.
Proof.
  induction 1 as [|it l Hit _ IH]; csimpl; [done|].
  rewrite IH, orb_false_r. unfold negative_quantity. simpl.
  destruct (item_quantity it) as [q|]; [|done].
  specialize (Hit q eq_refl). lia.
Qed.

(** With no per-seat item, one [subscriptions.update] adds one item at the
    per-seat price and leaves the others as they are. *)
Lemma updateSubscriptionSeats_absent p sid s n :
  subscriptions p !! sid = Some s → 0 ≤ n →
  List.find (is_per_seat cfg) (sub_items s) = None →
  NoDup (item_id <$> sub_items s) →
  Forall (λ it, ∀ q, item_quantity it = Some q → 0 ≤ q) (sub_items s) →
  ∃ p' new,
    updateSubscriptionSeats cfg p sid n = (Ok (), p')
    ∧ subscriptions p' !! sid = Some (with_items (sub_items s ++ [new]) s)
    ∧ price_id new = perSeatPriceId cfg ∧ item_quantity new = Some n.
Proof.
  intros Hs Hn Hf Hnd Hq. unfold updateSubscriptionSeats.
  rewrite (subscriptions_retrieve_ok _ _ _ Hs), Hf.
  unfold subscriptions_update. cbn [subscriptions received].
  rewrite Hs. fold param_of.
  assert (existsb negative_quantity
            ((param_of <$> sub_items s)
             ++ [ {| ip_id := None; ip_price := perSeatPriceId cfg;
                     ip_quantity := Some n |} ]) = false) as ->.
  { rewrite existsb_app, no_negative_params by done.
    unfold negative_quantity. simpl. rewrite orb_false_r. lia. }
  rewrite foldl_app, foldl_params_same by done. simpl.
  eexists _, _. split; [reflexivity|]. simpl.
  rewrite lookup_insert_eq. done.
Qed.

Lemma per_seat_items_with_items s l :
  per_seat_items cfg (with_items l s)
  = filter (λ it, price_id it = perSeatPriceId cfg) l.
Proof. done. Qed.

Lemma update_present_items p sid s n old :
  subscriptions p !! sid = Some s → 0 ≤ n →
  per_seat_items cfg s = [old] →
  ∃ p' s',
    updateSubscriptionSeats cfg p sid n = (Ok (), p')
    ∧ subscriptions p' !! sid = Some s'
    ∧ sub_items s' = set_quantity (item_id old) n <$> sub_items s
    ∧ per_seat_items cfg s' = [with_quantity n old].
Proof.
  intros Hs Hn Hold.
  destruct (List.find (is_per_seat cfg) (sub_items s)) as [x|] eqn:Hf.
  - assert (x = old) as ->.
    { assert (per_seat_items cfg s = [x]) as Hx
        by (apply per_seat_singleton; [rewrite Hold; simpl; lia|done]).
      congruence. }
    destruct (updateSubscriptionSeats_present p sid s n old Hs Hn Hf)
      as (p' & Hcall & Hlook & _).
    eexists _, _. split; [exact Hcall|]. split; [exact Hlook|].
    split; [done|].
    rewrite per_seat_items_with_items, filter_set_quantity.
    fold (per_seat_items cfg s). rewrite Hold. csimpl.
    by rewrite set_quantity_self.
  - apply find_filter_nil in Hf. unfold per_seat_items in Hold. congruence.
Qed.

Lemma set_quantity_in_place n pre old post :
  NoDup (item_id <$> pre ++ old :: post) →
  set_quantity (item_id old) n <$> pre ++ old :: post
  = pre ++ with_quantity n old :: post.
Proof.
  rewrite fmap_app, fmap_cons. intros Hnd.
  apply NoDup_app in Hnd as (_ & Hpre & Hnd).
  apply NoDup_cons in Hnd as [Hpost _].
  rewrite fmap_app, fmap_cons, set_quantity_self. f_equal; [|f_equal].
  - rewrite <- (list_fmap_id pre) at 2. apply list_fmap_ext.
    intros j x Hx. unfold id. apply set_quantity_other. intros Hid.
    apply (Hpre (item_id x)).
    + apply list_elem_of_fmap_2. by eapply list_elem_of_lookup_2.
    + rewrite Hid. by left.
  - rewrite <- (list_fmap_id post) at 2. apply list_fmap_ext.
    intros j x Hx. unfold id. apply set_quantity_other. intros Hid.
    apply Hpost. rewrite <- Hid.
    apply list_elem_of_fmap_2. by eapply list_elem_of_lookup_2.
Qed.

End Seats.



(** Seat counts that are not negative.  For a subscription the provider
    holds and seat counts [n], [m] with [0 ≤ n] and [0 ≤ m],
    [updateSubscriptionSeats] with [n] succeeds and leaves exactly one
    per-seat line item, of quantity [n]: an existing per-seat
    item is updated where it stands, the other items untouched; with none,
    one item at the per-seat price is appended.  A second call with [m]
    changes the quantity of that same item to [m] and adds no item.  The
    route answers 400 to a negative seat count and leaves the world, and so
    the provider's call log, as it was. *)
Theorem updateSubscriptionSeats_one_per_seat_item cfg p sid s n m :
  subscriptions p !! sid = Some s → well_formed cfg s → 0 ≤ n → 0 ≤ m →
  ∃ p1 s1 it1,
    updateSubscriptionSeats cfg p sid n = (Ok (), p1)
    ∧ subscriptions p1 !! sid = Some s1
    ∧ per_seat_items cfg s1 = [it1] ∧ item_quantity it1 = Some n
    ∧ (∀ pre old post,
         sub_items s = pre ++ old :: post →
         price_id old = perSeatPriceId cfg →
         sub_items s1 = pre ++ with_quantity n old :: post)
    ∧ (per_seat_items cfg s = [] → sub_items s1 = sub_items s ++ [it1])
    ∧ (∃ p2 s2 it2,
         updateSubscriptionSeats cfg p1 sid m = (Ok (), p2)
         ∧ subscriptions p2 !! sid = Some s2
         ∧ per_seat_items cfg s2 = [it2]
         ∧ item_id it2 = item_id it1 ∧ item_quantity it2 = Some m
         ∧ length (sub_items s2) = length (sub_items s1))
    ∧ (∀ access w b k,
         seats_seatCount b = Some k → k < 0 →
         ∃ msg, update_seats_POST cfg access w (Some b)
                = (json (JsonError msg) 400, w)).
Proof.
  intros Hs (Hnd & Hq & Hlen) Hn Hm.
  assert (Hroute : ∀ access w b k,
             seats_seatCount b = Some k → k < 0 →
             ∃ msg, update_seats_POST cfg access w (Some b)
                    = (json (JsonError msg) 400, w)).
  { intros access w b k Hk Hneg. unfold update_seats_POST. rewrite Hk.
    destruct (seats_organizationId b) as [o|]; [|by eexists].
    destruct (negb (truthy (Some o))); [by eexists|].
    apply Z.ltb_lt in Hneg. rewrite Hneg. by eexists. }
  assert (Hsecond : ∀ p1 s1 it1,
             subscriptions p1 !! sid = Some s1 →
             per_seat_items cfg s1 = [it1] →
             ∃ p2 s2 it2,
               updateSubscriptionSeats cfg p1 sid m = (Ok (), p2)
               ∧ subscriptions p2 !! sid = Some s2
               ∧ per_seat_items cfg s2 = [it2]
               ∧ item_id it2 = item_id it1 ∧ item_quantity it2 = Some m
               ∧ length (sub_items s2) = length (sub_items s1)).
  { intros p1 s1 it1 Hs1 Hit1.
    destruct (update_present_items cfg p1 sid s1 m it1 Hs1 Hm Hit1)
      as (p2 & s2 & Hcall & Hlook & Hitems & Hps).
    exists p2, s2, (with_quantity m it1). split_and!; try done.
    by rewrite Hitems, length_fmap. }
  destruct (List.find (is_per_seat cfg) (sub_items s)) as [old|] eqn:Hf.
  - pose proof (per_seat_singleton cfg s old Hlen Hf) as Hold.
    destruct (update_present_items cfg p sid s n old Hs Hn Hold)
      as (p1 & s1 & Hcall & Hlook & Hitems & Hps).
    exists p1, s1, (with_quantity n old). split_and!; try done.
    + intros pre x post Hdec Hx.
      assert (x = old) as ->.
      { assert (x ∈ per_seat_items cfg s) as Hin.
        { unfold per_seat_items. apply list_elem_of_filter. split; [done|].
          rewrite Hdec. apply elem_of_app. right. by left. }
        rewrite Hold in Hin. by apply list_elem_of_singleton in Hin. }
      rewrite Hitems, Hdec. apply set_quantity_in_place. by rewrite <- Hdec.
    + intros Hnil. congruence.
    + by apply (Hsecond p1 s1).
  - destruct (updateSubscriptionSeats_absent cfg p sid s n Hs Hn Hf Hnd Hq)
      as (p1 & new & Hcall & Hlook & Hprice & Hquant).
    assert (Hps : per_seat_items cfg (with_items (sub_items s ++ [new]) s)
                  = [new]).
    { rewrite per_seat_items_with_items, filter_app.
      apply find_filter_nil in Hf. rewrite Hf. simpl.
      by rewrite filter_cons, decide_True. }
    exists p1, (with_items (sub_items s ++ [new]) s), new.
    split_and!; try done.
    + intros pre x post Hdec Hx. exfalso.
      apply find_filter_nil in Hf.
      assert (x ∈ filter (λ it, price_id it = perSeatPriceId cfg) (sub_items s))
        as Hin.
      { apply list_elem_of_filter. split; [done|].
        rewrite Hdec. apply elem_of_app. right. by left. }
      rewrite Hf in Hin. by apply elem_of_nil in Hin.
    + by apply (Hsecond p1 _).
Qed.

Lemma updateSubscriptionSeats_one_per_seat_item_witness :
  ∃ p1 s1 it1,
    updateSubscriptionSeats sample_cfg base_only_stripe "sub_2" 3 = (Ok (), p1)
    ∧ subscriptions p1 !! "sub_2" = Some s1
    ∧ per_seat_items sample_cfg s1 = [it1] ∧ item_quantity it1 = Some 3
    ∧ ∃ p2 s2 it2,
        updateSubscriptionSeats sample_cfg p1 "sub_2" 5 = (Ok (), p2)
        ∧ subscriptions p2 !! "sub_2" = Some s2
        ∧ per_seat_items sample_cfg s2 = [it2]
        ∧ item_id it2 = item_id it1 ∧ item_quantity it2 = Some 5.
Proof.
  destruct (updateSubscriptionSeats_one_per_seat_item sample_cfg
              base_only_stripe "sub_2" base_only_subscription 3 5)
    as (p1 & s1 & it1 & Hcall & Hlook & Hps & Hq & _ & _ & Hsecond & _).
  - reflexivity.
  - split; [apply NoDup_singleton|]. split; [|simpl; lia].
    constructor; [|constructor]. intros q [= <-]. lia.
  - lia.
  - lia.
  - exists p1, s1, it1. split; [exact Hcall|]. split; [exact Hlook|].
    split; [exact Hps|]. split; [exact Hq|].
    destruct Hsecond as (p2 & s2 & it2 & H1 & H2 & H3 & H4 & H5 & _).
    exists p2, s2, it2. split; [exact H1|]. split; [exact H2|].
    split; [exact H3|]. split; [exact H4 | exact H5].
Defined.

(** The two calls, evaluated: the base item stays, one per-seat item is
    added by the first call and re-quantified by the second; through the
    route, a negative seat count never reaches the provider. *)
Example seats_twice :
  let p1 := (updateSubscriptionSeats sample_cfg base_only_stripe "sub_2" 3).2 in
  let p2 := (updateSubscriptionSeats sample_cfg p1 "sub_2" 5).2 in
  sub_items <$> subscriptions p2 !! "sub_2"
  = Some [ {| item_id := "si_a"; price_id := "price_pro";
              item_quantity := Some 1 |};
           {| item_id := "si_1"; price_id := "price_per_seat";
              item_quantity := Some 5 |} ].
Proof. by vm_compute. Qed.

Example seats_negative (access : World → string → option string → result Organization) :
  update_seats_POST sample_cfg access sample_world
    (Some {| seats_organizationId := Some "org-1"; seats_seatCount := Some (-1) |})
  = (json (JsonError "Seat count must be non-negative") 400, sample_world).
Proof. reflexivity. Qed.

(** * Further properties of the code *)

(** ** The ledger: what a call can and cannot do *)

(** [trackUsage] only ever appends: the records the table held stay where
    they are, at most one record is added, and an added record carries the
    arguments of the call. *)
Theorem trackUsage_appends o env tbl d q ts key :
  ∃ added,
    usage_records (trackUsage o env tbl d q ts key).2
    = usage_records tbl ++ added
    ∧ (length added ≤ 1)%nat
    ∧ Forall (λ r, organization_id r = o ∧ dimension r = d ∧ quantity r = q
                   ∧ timestamp r = default (now env) ts
                   ∧ stripe_usage_record_id r = key) added.
Proof.
  unfold trackUsage.
  destruct (trackUsage_lookup o env tbl d key) as [r|].
  - exists []. simpl. rewrite app_nil_r. split_and!; [done|lia|constructor].
  - unfold trackUsage_insert, insert_rows.
    destruct (insert_error env) as [msg|].
    + exists []. simpl. rewrite app_nil_r.
      split_and!; [done|lia|constructor].
    + eexists [_]. simpl. split; [reflexivity|]. split; [lia|].
      constructor; [|constructor]. by split_and!.
Qed.

(** When the store refuses the insert, the table is left as it is, and the
    call either returns a record the table already held, flagged as already
    recorded, or throws with the store's message. *)
Theorem trackUsage_refused o env tbl d q ts key msg :
  insert_error env = Some msg →
  (trackUsage o env tbl d q ts key).2 = tbl
  ∧ ((∃ r, r ∈ usage_records tbl
           ∧ (trackUsage o env tbl d q ts key).1
             = Ok {| tr_id := row_id r; alreadyRecorded := true |})
     ∨ (trackUsage o env tbl d q ts key).1
       = Throw ("Failed to track usage: " +:+ msg)).
Proof.
  intros Hi. unfold trackUsage.
  destruct (trackUsage_lookup o env tbl d key) as [r|] eqn:Hl.
  - split; [done|]. left. exists r. split; [|done].
    unfold trackUsage_lookup in Hl. destruct key as [k|]; [|done].
    destruct (truthy (Some k)); [|done]. unfold select_single in Hl.
    destruct (select_error env); [done|].
    destruct (List.filter _ _) as [|x [|??]] eqn:Hf; try done.
    simpl in Hl. injection Hl as ->.
    assert (In r (List.filter (has_key o d k) (usage_records tbl))) as Hin
      by (rewrite Hf; by left).
    apply List.filter_In in Hin as [Hin _]. by apply list_elem_of_In.
  - unfold trackUsage_insert, insert_rows. rewrite Hi. simpl. split; [done|].
    by right.
Qed.

Lemma trackUsage_refused_witness :
  let env := {| now := 5; select_error := None;
                insert_error := Some "store is down";
                update_error := None |} in
  let tbl := {| usage_records := []; next_id := 0 |} in
  (trackUsage "org-1" env tbl "api_calls" 3 None (Some "key-1")).1
  = Throw "Failed to track usage: store is down"
  ∧ (trackUsage "org-1" env tbl "api_calls" 3 None (Some "key-1")).2 = tbl.
Proof.
  intros env tbl.
  destruct (trackUsage_refused "org-1" env tbl "api_calls" 3 None
              (Some "key-1") "store is down" eq_refl)
    as [H2 [(r & Hr & _)|H1]].
  - by apply elem_of_nil in Hr.
  - split; [exact H1 | exact H2].
Defined.

(** The reply of the lookup is read for its data only.  When the store does
    not answer the lookup but takes the insert, the call inserts, whatever
    the table holds for the key. *)
Theorem trackUsage_inserts_when_lookup_fails o env tbl d q ts key e :
  select_error env = Some e → insert_error env = None →
  ∃ r,
    trackUsage o env tbl d q ts key
    = (Ok {| tr_id := row_id r; alreadyRecorded := false |},
       {| usage_records := usage_records tbl ++ [r];
          next_id := (next_id tbl + 1)%nat |})
    ∧ organization_id r = o ∧ dimension r = d ∧ quantity r = q
    ∧ stripe_usage_record_id r = key.
Proof.
  intros Hs Hi. unfold trackUsage.
  assert (trackUsage_lookup o env tbl d key = None) as ->.
  { unfold trackUsage_lookup, select_single. rewrite Hs.
    destruct key as [k|]; [|done]. by destruct (truthy (Some k)). }
  rewrite trackUsage_insert_ok by done.
  eexists {| row_id := _ |}. split; [reflexivity|]. done.
Qed.

Lemma trackUsage_inserts_when_lookup_fails_witness :
  let tbl :=
    {| usage_records :=
         [ {| row_id := 0; organization_id := "org-1"; dimension := "api_calls";
              quantity := 5; timestamp := 10;
              stripe_usage_record_id := Some "key-1" |} ];
       next_id := 1 |} in
  let env := {| now := 20; select_error := Some "timeout";
                insert_error := None; update_error := None |} in
  ∃ r, (trackUsage "org-1" env tbl "api_calls" 5 (Some 10) (Some "key-1")).1
       = Ok {| tr_id := row_id r; alreadyRecorded := false |}
       ∧ stripe_usage_record_id r = Some "key-1".
Proof.
  intros tbl env.
  destruct (trackUsage_inserts_when_lookup_fails "org-1" env tbl "api_calls" 5
              (Some 10) (Some "key-1") "timeout" eq_refl eq_refl)
    as (r & H & _ & _ & _ & Hk).
  exists r. rewrite H. split; [reflexivity | exact Hk].
Defined.

Lemma stored_from_lookup n rs i r :
  rs !! i = Some r → stored_from n rs !! i = Some (stored (n + i) r).
Proof.
  revert n i. induction rs as [|x rs IH]; intros n i; [done|].
  destruct i as [|i]; simpl.
  - intros [= ->]. by rewrite Nat.add_0_r.
  - intros H. rewrite (IH (S n) i H). do 2 f_equal. lia.
Qed.

(** With a store that takes the statement, [batchTrackUsage] returns and
    appends one record per item, in the order of the list: the [i]-th record
    has the [i]-th item's dimension, quantity and key, the tracker's
    organization, and the item's timestamp or, without one, the time of the
    call.  No item is looked up, so an empty list appends nothing. *)
Theorem batchTrackUsage_appends_items o env tbl items :
  insert_error env = None →
  ∃ data,
    batchTrackUsage o env tbl items
    = (Ok data,
       {| usage_records := usage_records tbl ++ data;
          next_id := (next_id tbl + length items)%nat |})
    ∧ length data = length items
    ∧ ∀ i item,
        items !! i = Some item →
        data !! i
        = Some {| row_id := (next_id tbl + i)%nat;
                  organization_id := o;
                  dimension := b_dimension item;
                  quantity := b_quantity item;
                  timestamp := default (now env) (b_timestamp item);
                  stripe_usage_record_id := b_idempotencyKey item |}.
Proof.
  intros Hi. unfold batchTrackUsage, insert_rows. rewrite Hi.
  eexists. split; [by rewrite length_fmap|]. split.
  - by rewrite stored_from_length, length_fmap.
  - intros i item Hitem.
    erewrite stored_from_lookup
      by (rewrite list_lookup_fmap, Hitem; reflexivity).
    reflexivity.
Qed.

Lemma batchTrackUsage_appends_items_witness :
  ∃ data,
    (batchTrackUsage "org-1" (at_time 9) {| usage_records := []; next_id := 4 |}
       [ {| b_dimension := "api_calls"; b_quantity := 2; b_timestamp := None;
            b_idempotencyKey := None |};
         {| b_dimension := "emails_sent"; b_quantity := 1;
            b_timestamp := Some 3; b_idempotencyKey := Some "k" |} ]).1
    = Ok data
    ∧ length data = 2%nat.
Proof.
  destruct (batchTrackUsage_appends_items "org-1" (at_time 9)
              {| usage_records := []; next_id := 4 |}
              [ {| b_dimension := "api_calls"; b_quantity := 2;
                   b_timestamp := None; b_idempotencyKey := None |};
                {| b_dimension := "emails_sent"; b_quantity := 1;
                   b_timestamp := Some 3; b_idempotencyKey := Some "k" |} ]
              eq_refl) as (data & H & Hlen & _).
  exists data. rewrite H. split; [reflexivity | exact Hlen].
Defined.

(** When the store refuses the statement, [batchTrackUsage] throws with the
    store's message and the table is left as it was: not one item of the
    list is written, and the caller gets no outcome per item. *)
Theorem batchTrackUsage_refused o env tbl items msg :
  insert_error env = Some msg →
  batchTrackUsage o env tbl items
  = (Throw ("Failed to batch track usage: " +:+ msg), tbl).
Proof. intros Hi. unfold batchTrackUsage, insert_rows. by rewrite Hi. Qed.

Lemma batchTrackUsage_refused_witness :
  batchTrackUsage "org-1"
    {| now := 9; select_error := None; insert_error := Some "violates check";
       update_error := None |}
    {| usage_records := []; next_id := 0 |}
    [ {| b_dimension := "api_calls"; b_quantity := 2; b_timestamp := None;
         b_idempotencyKey := None |} ]
  = (Throw "Failed to batch track usage: violates check",
     {| usage_records := []; next_id := 0 |}).
Proof.
  apply (batchTrackUsage_refused "org-1"
    {| now := 9; select_error := None; insert_error := Some "violates check";
       update_error := None |}
    {| usage_records := []; next_id := 0 |}
    [ {| b_dimension := "api_calls"; b_quantity := 2; b_timestamp := None;
         b_idempotencyKey := None |} ] "violates check" eq_refl).
Defined.

(** ** The summary *)

Lemma in_period_split o d s e r :
  in_period o d s e r
  = (String.eqb (organization_id r) o && String.eqb (dimension r) d)
    && ((s <=? timestamp r) && (timestamp r <=? e)).
Proof. unfold in_period. by rewrite !andb_assoc. Qed.

Lemma List_filter_and {A} (f g : A → bool) (l : list A) :
  List.filter (λ x, f x && g x) l = List.filter g (List.filter f l).
Proof.
  induction l as [|x l IH]; [done|]. simpl.
  destruct (f x); simpl; [destruct (g x)|]; by rewrite IH.
Qed.

(** The summary of an organization and dimension reads the records of that
    organization and dimension only: two tables that agree on them give the
    same summary, whatever else they hold. *)
Theorem getUsageSummary_isolation o env d s e tbl1 tbl2 :
  filter (λ r, organization_id r = o ∧ dimension r = d) (usage_records tbl1)
  = filter (λ r, organization_id r = o ∧ dimension r = d) (usage_records tbl2) →
  getUsageSummary o env tbl1 d s e = getUsageSummary o env tbl2 d s e.
Proof.
  intros H. unfold getUsageSummary.
  assert (∀ tbl,
    List.filter (in_period o d s e) (usage_records tbl)
    = List.filter (λ r, (s <=? timestamp r) && (timestamp r <=? e))
        (filter (λ r, organization_id r = o ∧ dimension r = d)
           (usage_records tbl))) as Hsplit.
  { intros tbl.
    rewrite <- (List_filter_ext_dec
                  (λ r, String.eqb (organization_id r) o
                        && String.eqb (dimension r) d)).
    - rewrite <- List_filter_and. apply List.filter_ext. intros r.
      apply in_period_split.
    - intros r. by rewrite andb_true_iff, !eqb_true. }
  by rewrite !Hsplit, H.
Qed.

Lemma getUsageSummary_isolation_witness :
  let mine := {| row_id := 0; organization_id := "org-1";
                 dimension := "api_calls"; quantity := 3; timestamp := 5;
                 stripe_usage_record_id := None |} in
  let other := {| row_id := 1; organization_id := "org-2";
                  dimension := "api_calls"; quantity := 100; timestamp := 5;
                  stripe_usage_record_id := None |} in
  getUsageSummary "org-1" (at_time 9)
    {| usage_records := [mine; other]; next_id := 2 |} "api_calls" 0 10
  = getUsageSummary "org-1" (at_time 9)
      {| usage_records := [mine]; next_id := 1 |} "api_calls" 0 10.
Proof.
  intros mine other.
  apply (getUsageSummary_isolation "org-1" (at_time 9) "api_calls" 0 10
           {| usage_records := [mine; other]; next_id := 2 |}
           {| usage_records := [mine]; next_id := 1 |}).
  reflexivity.
Defined.

Lemma sum_quantity_filter_mono (P Q : UsageRecord → Prop)
    `{∀ r, Decision (P r)} `{∀ r, Decision (Q r)} (l : list UsageRecord) :
  (∀ r, P r → Q r) → Forall (λ r, 0 ≤ quantity r) l →
  0 ≤ sum_quantity (filter P l)
  ∧ sum_quantity (filter P l) ≤ sum_quantity (filter Q l)
  ∧ (length (filter P l) ≤ length (filter Q l))%nat.
Proof.
  intros HPQ. induction 1 as [|r l Hr _ IH]; [by simpl|].
  rewrite !filter_cons. destruct IH as (IH0 & IH1 & IH2).
  destruct (decide (P r)) as [HP|HP].
  - rewrite decide_True by auto. unfold sum_quantity in *. simpl. lia.
  - destruct (decide (Q r)); unfold sum_quantity in *; simpl; lia.
Qed.

(** With no negative quantity in the table, a summary is never negative and
    widening the period never lowers the total or the count. *)
Theorem getUsageSummary_widening o env tbl d s e s' e' sm sm' :
  Forall (λ r, 0 ≤ quantity r) (usage_records tbl) →
  s' ≤ s → e ≤ e' →
  getUsageSummary o env tbl d s e = Ok sm →
  getUsageSummary o env tbl d s' e' = Ok sm' →
  0 ≤ totalUsage sm
  ∧ totalUsage sm ≤ totalUsage sm'
  ∧ (recordCount sm ≤ recordCount sm')%nat.
Proof.
  intros Hq Hs He Hsm Hsm'.
  destruct (select_error env) as [msg|] eqn:Hsel.
  { unfold getUsageSummary in Hsm. by rewrite Hsel in Hsm. }
  destruct (getUsageSummary_ok o env tbl d s e Hsel)
    as (x & Hx & _ & Ht & Hc & _).
  destruct (getUsageSummary_ok o env tbl d s' e' Hsel)
    as (x' & Hx' & _ & Ht' & Hc' & _).
  assert (x = sm) as -> by congruence. assert (x' = sm') as -> by congruence.
  rewrite Ht, Ht', Hc, Hc'. unfold within_closed.
  apply sum_quantity_filter_mono; [|done].
  intros r (? & ? & ?). split_and!; try done; lia.
Qed.

Lemma getUsageSummary_widening_witness :
  let tbl :=
    {| usage_records :=
         [ {| row_id := 0; organization_id := "org-1"; dimension := "api_calls";
              quantity := 3; timestamp := 5; stripe_usage_record_id := None |};
           {| row_id := 1; organization_id := "org-1"; dimension := "api_calls";
              quantity := 4; timestamp := 15;
              stripe_usage_record_id := None |} ];
       next_id := 2 |} in
  ∃ sm sm',
    getUsageSummary "org-1" (at_time 9) tbl "api_calls" 0 10 = Ok sm
    ∧ getUsageSummary "org-1" (at_time 9) tbl "api_calls" 0 20 = Ok sm'
    ∧ totalUsage sm ≤ totalUsage sm'.
Proof.
  intros tbl. eexists _, _. split; [reflexivity|]. split; [reflexivity|].
  eapply (getUsageSummary_widening "org-1" (at_time 9) tbl "api_calls"
            0 10 0 20).
  - repeat constructor; simpl; lia.
  - lia.
  - lia.
  - reflexivity.
  - reflexivity.
Defined.

(** A period whose end lies before its start has no record: the summary is
    empty, with total 0. *)
Theorem getUsageSummary_empty_period o env tbl d s e :
  e < s → select_error env = None →
  getUsageSummary o env tbl d s e
  = Ok {| totalUsage := 0; recordCount := 0; records := [];
          period := (s, e) |}.
Proof.
  intros Hlt Hsel. unfold getUsageSummary. rewrite Hsel.
  assert (List.filter (in_period o d s e) (usage_records tbl) = []) as ->;
    [|done].
  induction (usage_records tbl) as [|r l IH]; [done|]. simpl.
  assert (in_period o d s e r = false) as ->; [|done].
  apply not_true_iff_false. rewrite in_period_spec. lia.
Qed.

Lemma getUsageSummary_empty_period_witness :
  getUsageSummary "org-1" (at_time 9)
    {| usage_records :=
         [ {| row_id := 0; organization_id := "org-1"; dimension := "api_calls";
              quantity := 3; timestamp := 5;
              stripe_usage_record_id := None |} ];
       next_id := 1 |} "api_calls" 10 0
  = Ok {| totalUsage := 0; recordCount := 0; records := [];
          period := (10, 0) |}.
Proof.
  apply (getUsageSummary_empty_period "org-1" (at_time 9)); [lia|reflexivity].
Defined.

Lemma sequential_calls_insert_once_witness :
  let a := {| a_dimension := "api_calls"; a_quantity := 1;
              a_timestamp := Some 10; a_idempotencyKey := Some "key-1" |} in
  let st := run_schedule "org-1" (at_time 20)
              [FirstCall; FirstCall; SecondCall; SecondCall]
              {| first_call := Called a; second_call := Called a;
                 table := {| usage_records := []; next_id := 0 |} |} in
  inserted (first_call st) = true
  ∧ inserted (second_call st) = false
  ∧ length (keyed "org-1" "api_calls" "key-1" (table st)) = 1%nat.
Proof.
  apply (sequential_calls_insert_once "org-1" (at_time 20)
           {| usage_records := []; next_id := 0 |} "api_calls" 1 (Some 10)
           "key-1"); [discriminate|reflexivity..].
Defined.

(** ** The webhook: acknowledgements, frame and order *)

Section WebhookFurther.

Variable cfg : StripeConfig.
Variable constructEvent : string → string → string → option Event.
Variable secret : string.

Abbreviation POST := (webhook_POST cfg constructEvent secret).

Lemma POST_signed env w request event :
  signed constructEvent secret request event →
  POST env w request = (json JsonReceived 200, dispatch cfg env w event).
Proof.
  intros (sig & Hsig & Hne & Hev). unfold webhook_POST.
  rewrite Hsig, (proj2 (truthy_Some sig) Hne). by rewrite Hev.
Qed.

Lemma truthy_names_nobody m :
  names_nobody m →
  truthy (m ≫= (λ m : gmap string string, m !! "organization_id")) = false.
Proof.
  unfold names_nobody. destruct (m ≫= _) as [oid|]; [|done].
  intros ->. done.
Qed.

(** A signed [invoice.finalized] or [checkout.session.completed] event, and
    a signed event of a kind the handler does not know, is acknowledged with
    200 and changes nothing but the console, to which one line is added. *)
Theorem webhook_POST_informational env w request event :
  signed constructEvent secret request event →
  (∃ i, event = InvoiceFinalized i) ∨ (∃ c, event = CheckoutSessionCompleted c)
  ∨ (∃ t, event = OtherEvent t) →
  ∃ line, POST env w request = (json JsonReceived 200, log line w).
Proof.
  intros Hsig Hkind. rewrite (POST_signed _ _ _ _ Hsig).
  destruct Hkind as [[i ->]|[[c ->]|[t ->]]]; simpl.
  - by eexists.
  - unfold handleCheckoutCompleted.
    destruct (session_metadata c ≫= _) as [oid|]; [|by eexists].
    destruct (truthy (Some oid)); by eexists.
  - by eexists.
Qed.

(** A signed subscription or payment-failed event whose metadata names no
    organization is acknowledged with 200 and writes nothing: only a console
    line is added. *)
Theorem webhook_POST_without_organization_id env w request event :
  signed constructEvent secret request event →
  (∃ s, subscription_event event s ∧ names_nobody (Some (sub_metadata s)))
  ∨ (∃ i, event = InvoicePaymentFailed i ∧ names_nobody (invoice_metadata i)) →
  ∃ line, POST env w request = (json JsonReceived 200, log line w).
Proof.
  intros Hsig Hkind. rewrite (POST_signed _ _ _ _ Hsig).
  destruct Hkind as [(s & Hev & Hm)|(i & Hi & Hm)];
    apply truthy_names_nobody in Hm; simpl in Hm; [|subst event].
  - destruct Hev as [ -> | [ -> | -> ] ]; simpl;
      unfold handleSubscriptionUpdate, handleSubscriptionDeleted;
      destruct (sub_metadata s !! "organization_id") as [oid|];
        rewrite ?Hm; by eexists.
  - simpl. unfold handleInvoicePaymentFailed.
    destruct (invoice_metadata i ≫= _) as [oid|]; rewrite ?Hm; by eexists.
Qed.

(** A signed [customer.subscription.deleted] event naming an organization of
    the table resets that row: no subscription id, status ["canceled"], no
    plan, zero seats; the other columns keep their values and [updated_at]
    is the time of processing. *)
Theorem subscription_deleted_resets env w request s oid o :
  signed constructEvent secret request (CustomerSubscriptionDeleted s) →
  sub_metadata s !! "organization_id" = Some oid → oid ≠ "" →
  update_error env = None → organizations w !! oid = Some o →
  organizations (POST env w request).2 !! oid
  = Some {| name := name o; slug := slug o;
            stripe_customer_id := stripe_customer_id o;
            stripe_subscription_id := None;
            subscription_status := Some "canceled";
            subscription_plan := None;
            seat_count := 0;
            created_at := created_at o;
            updated_at := now env |}.
Proof.
  intros Hsig Hoid Hne Hu Ho. rewrite (POST_signed _ _ _ _ Hsig). simpl.
  unfold handleSubscriptionDeleted. rewrite Hoid.
  rewrite (proj2 (truthy_Some oid) Hne).
  by rewrite (update_organization_lookup _ _ _ _ o).
Qed.

Lemma kept_refl w : kept w w.
Proof. split_and!; try done. intros oid o' H. by exists o'. Qed.

Lemma kept_log line w w' : kept w w' → kept w (log line w').
Proof. done. Qed.

Lemma kept_update env u oid w : kept w (update_organization env u oid w).
Proof.
  unfold update_organization. destruct (update_error env); [apply kept_refl|].
  split_and!; simpl; try done.
  - apply dom_alter_L.
  - intros oid' o' H. destruct (decide (oid = oid')) as [<-|Hne].
    + rewrite lookup_alter_eq in H.
      destruct (organizations w !! oid) as [o|]; [|done].
      injection H as <-. by exists o.
    + rewrite lookup_alter_ne in H by done. by exists o'.
Qed.

Lemma kept_dispatch env w event : kept w (dispatch cfg env w event).
Proof.
  destruct event as [s|s|s|i|i|c|t]; simpl;
    unfold handleSubscriptionUpdate, handleSubscriptionDeleted,
      handleInvoiceFinalized, handleInvoicePaymentFailed,
      handleCheckoutCompleted;
    repeat match goal with
      | |- context [match ?x ≫= ?f with _ => _ end] =>
          destruct (x ≫= f) as [?|]
      | |- context [match sub_metadata ?s !! ?k with _ => _ end] =>
          destruct (sub_metadata s !! k) as [?|]
      | |- context [if truthy ?x then _ else _] => destruct (truthy x)
      end;
    repeat apply kept_log; try apply kept_refl; apply kept_update.
Qed.

(** Whatever the request, signed or not, a delivery leaves the provider and
    the usage table as they were, creates and deletes no organization, and
    keeps every organization's name, slug, customer id and creation time. *)
Theorem webhook_POST_keeps env w request : kept w (POST env w request).2.
Proof.
  unfold webhook_POST. destruct (stripe_signature request) as [sig|].
  - destruct (truthy (Some sig)); [|apply kept_refl].
    destruct (constructEvent _ _ _) as [event|]; simpl.
    + apply kept_dispatch.
    + apply kept_log, kept_refl.
  - apply kept_refl.
Qed.

Lemma organizations_update_failed env u oid w msg :
  update_error env = Some msg →
  update_organization env u oid w = w.
Proof. intros H. unfold update_organization. by rewrite H. Qed.

(** The handlers do not read the store's reply.  When the store refuses the
    update, a signed event is still acknowledged with 200 and no
    organization has changed. *)
Theorem webhook_POST_acknowledges_failed_write env w request event msg :
  signed constructEvent secret request event →
  update_error env = Some msg →
  (POST env w request).1 = json JsonReceived 200
  ∧ organizations (POST env w request).2 = organizations w.
Proof.
  intros Hsig Hu. rewrite (POST_signed _ _ _ _ Hsig). split; [done|].
  destruct event as [s|s|s|i|i|c|t]; simpl;
    unfold handleSubscriptionUpdate, handleSubscriptionDeleted,
      handleInvoiceFinalized, handleInvoicePaymentFailed,
      handleCheckoutCompleted;
    repeat match goal with
      | |- context [match ?x ≫= ?f with _ => _ end] =>
          destruct (x ≫= f) as [?|]
      | |- context [match sub_metadata ?s !! ?k with _ => _ end] =>
          destruct (sub_metadata s !! k) as [?|]
      | |- context [if truthy ?x then _ else _] => destruct (truthy x)
      end;
    rewrite ?(organizations_update_failed _ _ _ _ _ Hu); done.
Qed.

(** Of two signed subscription events that name the same organization, the
    one processed last decides: the table is the one its delivery alone
    would have produced, whichever of the two the provider generated
    first. *)
Theorem last_subscription_event_wins env1 env2 w r1 r2 e1 e2 s1 s2 oid :
  signed constructEvent secret r1 e1 → signed constructEvent secret r2 e2 →
  subscription_event e1 s1 → subscription_event e2 s2 →
  sub_metadata s1 !! "organization_id" = Some oid →
  sub_metadata s2 !! "organization_id" = Some oid → oid ≠ "" →
  update_error env2 = None →
  organizations (POST env2 (POST env1 w r1).2 r2).2
  = organizations (POST env2 w r2).2.
Proof.
  intros Hr1 Hr2 He1 He2 Ho1 Ho2 Hne Hu2.
  rewrite !(POST_signed _ _ _ _ Hr2), (POST_signed _ _ _ _ Hr1). simpl.
  destruct He1 as [ -> | [ -> | -> ] ], He2 as [ -> | [ -> | -> ] ]; simpl;
    unfold handleSubscriptionUpdate, handleSubscriptionDeleted;
    rewrite Ho1, Ho2, (proj2 (truthy_Some oid) Hne);
    unfold update_organization; rewrite Hu2;
    destruct (update_error env1); simpl; try done;
    by apply alter_twice.
Qed.

End WebhookFurther.

Lemma webhook_POST_informational_witness :
  ∃ line,
    webhook_POST sample_cfg (sample_constructEvent (OtherEvent "customer.created"))
      "whsec_1" (at_time 3) sample_world sample_request
    = (json JsonReceived 200, log line sample_world).
Proof.
  apply (webhook_POST_informational sample_cfg
           (sample_constructEvent (OtherEvent "customer.created")) "whsec_1"
           (at_time 3) sample_world sample_request
           (OtherEvent "customer.created")).
  - exists "whsec_1{}". split; [reflexivity|]. split; [discriminate|reflexivity].
  - right. right. by exists "customer.created".
Defined.

Lemma webhook_POST_without_organization_id_witness :
  let s := {| sub_id := "sub_9"; sub_status := "active"; sub_items := [];
              sub_metadata := ∅ |} in
  ∃ line,
    webhook_POST sample_cfg
      (sample_constructEvent (CustomerSubscriptionCreated s))
      "whsec_1" (at_time 3) sample_world sample_request
    = (json JsonReceived 200, log line sample_world).
Proof.
  intros s.
  apply (webhook_POST_without_organization_id sample_cfg
           (sample_constructEvent (CustomerSubscriptionCreated s)) "whsec_1"
           (at_time 3) sample_world sample_request
           (CustomerSubscriptionCreated s)).
  - exists "whsec_1{}". split; [reflexivity|]. split; [discriminate|reflexivity].
  - left. exists s. split; [by left|]. exact I.
Defined.

Lemma subscription_deleted_resets_witness :
  organizations
    (webhook_POST sample_cfg
       (sample_constructEvent (CustomerSubscriptionDeleted sample_subscription))
       "whsec_1" (at_time 3) sample_world sample_request).2 !! "org-1"
  = Some {| name := "Acme"; slug := "acme";
            stripe_customer_id := Some "cus_1";
            stripe_subscription_id := None;
            subscription_status := Some "canceled";
            subscription_plan := None;
            seat_count := 0;
            created_at := 0;
            updated_at := 3 |}.
Proof.
  apply (subscription_deleted_resets sample_cfg
           (sample_constructEvent (CustomerSubscriptionDeleted sample_subscription))
           "whsec_1" (at_time 3) sample_world sample_request
           sample_subscription "org-1" sample_organization).
  - exists "whsec_1{}". split; [reflexivity|]. split; [discriminate|reflexivity].
  - reflexivity.
  - discriminate.
  - reflexivity.
  - reflexivity.
Defined.

Lemma webhook_POST_acknowledges_failed_write_witness :
  let env := {| now := 3; select_error := None; insert_error := None;
                update_error := Some "connection lost" |} in
  (webhook_POST sample_cfg
     (sample_constructEvent (CustomerSubscriptionDeleted sample_subscription))
     "whsec_1" env sample_world sample_request).1
  = json JsonReceived 200
  ∧ organizations
      (webhook_POST sample_cfg
         (sample_constructEvent (CustomerSubscriptionDeleted sample_subscription))
         "whsec_1" env sample_world sample_request).2
    = organizations sample_world.
Proof.
  intros env.
  apply (webhook_POST_acknowledges_failed_write sample_cfg
           (sample_constructEvent (CustomerSubscriptionDeleted sample_subscription))
           "whsec_1" env sample_world sample_request
           (CustomerSubscriptionDeleted sample_subscription) "connection lost").
  - exists "whsec_1{}". split; [reflexivity|]. split; [discriminate|reflexivity].
  - reflexivity.
Defined.

(** A verifier for two bodies: ["new"] parses to the update of the sample
    subscription, any other body to its deletion. *)
Lemma last_subscription_event_wins_witness :
  let verify body signature secret :=
    if String.eqb signature (secret +:+ body)
    then Some (if String.eqb body "new"
               then CustomerSubscriptionUpdated sample_subscription
               else CustomerSubscriptionDeleted sample_subscription)
    else None in
  let newer := {| text := "new"; stripe_signature := Some "whsec_1new" |} in
  let older := {| text := "old"; stripe_signature := Some "whsec_1old" |} in
  let POST env w r := (webhook_POST sample_cfg verify "whsec_1" env w r).2 in
  organizations (POST (at_time 2) (POST (at_time 1) sample_world newer) older)
  = organizations (POST (at_time 2) sample_world older).
Proof.
  intros verify newer older POST.
  apply (last_subscription_event_wins sample_cfg verify "whsec_1"
           (at_time 1) (at_time 2) sample_world newer older
           (CustomerSubscriptionUpdated sample_subscription)
           (CustomerSubscriptionDeleted sample_subscription)
           sample_subscription sample_subscription "org-1").
  - exists "whsec_1new". split; [reflexivity|]. split; [discriminate|reflexivity].
  - exists "whsec_1old". split; [reflexivity|]. split; [discriminate|reflexivity].
  - right. by left.
  - right. by right.
  - reflexivity.
  - reflexivity.
  - discriminate.
  - reflexivity.
Defined.

(** ** Billing commands *)

Section BillingFurther.

Variable cfg : StripeConfig.

Lemma is_metered_spec it :
  is_metered cfg it = true ↔ price_id it = meteredUsagePriceId cfg.
Proof. apply eqb_true. Qed.

(** [reportUsage] on a subscription without a metered item throws; the
    provider has received the retrieval and nothing else: no usage record is
    created and no item is added. *)
Theorem reportUsage_without_metered_item p sid s q ts :
  subscriptions p !! sid = Some s →
  Forall (λ it, price_id it ≠ meteredUsagePriceId cfg) (sub_items s) →
  reportUsage cfg p sid q ts
  = (Throw "Metered usage price not found in subscription",
     {| subscriptions := subscriptions p;
        provider_usage := provider_usage p;
        next_object := next_object p;
        calls := calls p ++ [SubscriptionsRetrieve sid] |}).
Proof.
  intros Hs Hno. unfold reportUsage.
  rewrite (subscriptions_retrieve_ok _ _ _ Hs).
  assert (List.find (is_metered cfg) (sub_items s) = None) as ->; [|done].
  apply find_none_Forall. eapply Forall_impl; [exact Hno|].
  intros it Hit. apply not_true_iff_false. by rewrite is_metered_spec.
Qed.



Lemma seats_throw_subscriptions p sid n msg :
  (updateSubscriptionSeats cfg p sid n).1 = Throw msg →
  subscriptions (updateSubscriptionSeats cfg p sid n).2 = subscriptions p.
Proof.
  unfold updateSubscriptionSeats, subscriptions_retrieve.
  cbn [subscriptions received].
  destruct (subscriptions p !! sid) as [s|] eqn:Hs; [|done].
  destruct (List.find (is_per_seat cfg) (sub_items s)) as [old|].
  - unfold subscriptionItems_update. destruct (n <? 0); [done|].
    destruct (bool_decide _); [|done]. done.
  - unfold subscriptions_update. cbn [subscriptions received]. rewrite Hs.
    destruct (existsb negative_quantity _); done.
Qed.

(** A call of [updateSubscriptionSeats] that throws (unknown subscription,
    quantity refused by the provider) has changed no subscription. *)
Theorem updateSubscriptionSeats_throw_keeps_subscriptions p sid n msg :
  (updateSubscriptionSeats cfg p sid n).1 = Throw msg →
  subscriptions (updateSubscriptionSeats cfg p sid n).2 = subscriptions p.
Proof. apply seats_throw_subscriptions. Qed.

End BillingFurther.

Lemma reportUsage_without_metered_item_witness :
  (reportUsage sample_cfg base_only_stripe "sub_2" 7 None).1
  = Throw "Metered usage price not found in subscription".
Proof.
  rewrite (reportUsage_without_metered_item sample_cfg base_only_stripe "sub_2"
             base_only_subscription 7 None); [reflexivity|reflexivity|].
  constructor; [discriminate|constructor].
Defined.


Lemma updateSubscriptionSeats_throw_keeps_subscriptions_witness :
  subscriptions (updateSubscriptionSeats sample_cfg base_only_stripe "sub_x" 3).2
  = subscriptions base_only_stripe.
Proof.
  apply (updateSubscriptionSeats_throw_keeps_subscriptions sample_cfg
           base_only_stripe "sub_x" 3 "No such subscription: sub_x").
  reflexivity.
Defined.

(** ** The routes *)

Section RoutesFurther.

Variable cfg : StripeConfig.
Variable access : World → string → option string → result Organization.

(** The [update-seats] route never writes to the organizations or to the
    usage table (the local seat count waits for the webhook); when it answers
    400 the world is what it was, console included; and unless it answers
    200 no subscription of the provider has changed. *)
Theorem update_seats_POST_effects w request :
  let r := (update_seats_POST cfg access w request).1 in
  let w' := (update_seats_POST cfg access w request).2 in
  organizations w' = organizations w ∧ usage w' = usage w
  ∧ (status r = 400 → w' = w)
  ∧ (status r ≠ 200 →
     subscriptions (stripe w') = subscriptions (stripe w)).
Proof.
  unfold update_seats_POST.
  destruct request as [b|]; [|by simpl].
  destruct (seats_organizationId b) as [oid|]; [|by simpl].
  destruct (seats_seatCount b) as [n|]; [|by simpl].
  destruct (negb (truthy (Some oid))); [by simpl|].
  destruct (n <? 0); [by simpl|].
  destruct (access w oid (Some "admin")) as [org|]; [|by simpl].
  destruct (stripe_subscription_id org) as [sid|]; [|by simpl].
  destruct (truthy (Some sid)); [|by simpl].
  pose proof (seats_throw_subscriptions cfg (stripe w) sid n) as Hthrow.
  destruct (updateSubscriptionSeats cfg (stripe w) sid n) as [[[]|msg] p];
    simpl in *; split_and!; try done.
  intros _. by apply (Hthrow msg).
Qed.

(** For a caller the collaborator lets in as admin, an organization with a
    subscription the provider holds and a seat count that is not negative,
    the [update-seats] route answers 200 and the provider's subscription has
    exactly one per-seat item, of that quantity. *)
Theorem update_seats_POST_ok w oid n org sid s :
  oid ≠ "" → 0 ≤ n →
  access w oid (Some "admin") = Ok org →
  stripe_subscription_id org = Some sid → sid ≠ "" →
  subscriptions (stripe w) !! sid = Some s → well_formed cfg s →
  ∃ w' s' it,
    update_seats_POST cfg access w
      (Some {| seats_organizationId := Some oid; seats_seatCount := Some n |})
    = (json JsonSuccess 200, w')
    ∧ subscriptions (stripe w') !! sid = Some s'
    ∧ per_seat_items cfg s' = [it] ∧ item_quantity it = Some n.
Proof.
  intros Hoid Hn Hacc Hsid Hsidne Hs (Hnd & Hq & Hlen).
  unfold update_seats_POST. cbn [seats_organizationId seats_seatCount].
  rewrite (proj2 (truthy_Some oid) Hoid). cbn [negb].
  assert ((n <? 0) = false) as -> by lia.
  rewrite Hacc, Hsid, (proj2 (truthy_Some sid) Hsidne).
  destruct (List.find (is_per_seat cfg) (sub_items s)) as [old|] eqn:Hf.
  - pose proof (per_seat_singleton cfg s old Hlen Hf) as Hold.
    destruct (update_present_items cfg (stripe w) sid s n old Hs Hn Hold)
      as (p1 & s1 & Hcall & Hlook & _ & Hps).
    rewrite Hcall. eexists _, s1, _. split; [reflexivity|]. by split_and!.
  - destruct (updateSubscriptionSeats_absent cfg (stripe w) sid s n Hs Hn Hf
                Hnd Hq) as (p1 & new & Hcall & Hlook & Hprice & Hquant).
    rewrite Hcall. eexists _, _, new. split; [reflexivity|].
    split; [exact Hlook|]. split; [|done].
    rewrite per_seat_items_with_items, filter_app.
    apply find_filter_nil in Hf. rewrite Hf. simpl.
    by rewrite filter_cons, decide_True.
Qed.

(** Unless the [report-usage] route answers 200, neither the usage table nor
    the provider's usage records have changed; when it answers 400 the
    world is what it was. *)
Theorem report_usage_POST_failure_records_nothing env w request :
  let r := (report_usage_POST cfg access env w request).1 in
  let w' := (report_usage_POST cfg access env w request).2 in
  (status r = 400 → w' = w)
  ∧ (status r ≠ 200 →
     usage w' = usage w
     ∧ provider_usage (stripe w') = provider_usage (stripe w))
  ∧ organizations w' = organizations w.
Proof.
  unfold report_usage_POST.
  destruct request as [b|]; [|by simpl].
  destruct (usage_organizationId b) as [oid|]; [|by simpl].
  destruct (usage_dimension b) as [d|]; [|by simpl].
  destruct (usage_quantity b) as [q|]; [|by simpl].
  destruct (negb (truthy (Some oid)) || negb (truthy (Some d))); [by simpl|].
  destruct (q <? 0); [by simpl|].
  destruct (access w oid None) as [org|]; [|by simpl].
  destruct (stripe_subscription_id org) as [sid|]; [|by simpl].
  destruct (truthy (Some sid)); [|by simpl].
  unfold reportUsage, subscriptions_retrieve. cbn [subscriptions received].
  destruct (subscriptions (stripe w) !! sid) as [s|]; [|by simpl].
  destruct (List.find (is_metered cfg) (sub_items s)) as [item|]; by simpl.
Qed.


End RoutesFurther.

Lemma update_seats_POST_ok_witness :
  let w := {| stripe := base_only_stripe;
              usage := {| usage_records := []; next_id := 0 |};
              organizations := ∅; console := [] |} in
  ∃ w' s' it,
    update_seats_POST sample_cfg (grant "sub_2") w
      (Some {| seats_organizationId := Some "org-1";
               seats_seatCount := Some 4 |})
    = (json JsonSuccess 200, w')
    ∧ subscriptions (stripe w') !! "sub_2" = Some s'
    ∧ per_seat_items sample_cfg s' = [it] ∧ item_quantity it = Some 4.
Proof.
  intros w.
  eapply (update_seats_POST_ok sample_cfg (grant "sub_2") w "org-1" 4 _ "sub_2"
            base_only_subscription).
  - discriminate.
  - lia.
  - reflexivity.
  - reflexivity.
  - discriminate.
  - reflexivity.
  - split; [apply NoDup_singleton|]. split; [|simpl; lia].
    constructor; [|constructor]. intros q [= <-]. lia.
Defined.

(** A request that passes every check of the route, from a caller who is let
    in, for a subscription with a metered item: the answer is 500. *)
Example report_usage_POST_metered :
  report_usage_POST sample_cfg (grant "sub_3") (at_time 2000) metered_world
    (Some {| usage_organizationId := Some "org-1";
             usage_dimension := Some "api_calls";
             usage_quantity := Some 7; usage_timestamp := None |})
  = (json (JsonError "Failed to report usage") 500,
     log "Error reporting usage:"
       (with_stripe (received (SubscriptionsRetrieve "sub_3") metered_stripe)
          metered_world)).
Proof. reflexivity. Qed.

Lemma report_usage_POST_rejects_negative_witness :
  ∃ msg,
    report_usage_POST sample_cfg (grant "sub_3") (at_time 1) metered_world
      (Some {| usage_organizationId := Some "org-1";
               usage_dimension := Some "api_calls";
               usage_quantity := Some (-1); usage_timestamp := None |})
    = (json (JsonError msg) 400, metered_world).
Proof.
  apply (report_usage_POST_rejects_negative sample_cfg (grant "sub_3")
           (at_time 1) metered_world
           {| usage_organizationId := Some "org-1";
              usage_dimension := Some "api_calls";
              usage_quantity := Some (-1); usage_timestamp := None |} (-1));
    [reflexivity | lia].
Defined.

(** ** Roles and access *)

Lemma roleHierarchy_known r n :
  roleHierarchy r = Some n ↔
  (r = "member" ∧ n = 0) ∨ (r = "admin" ∧ n = 1) ∨ (r = "owner" ∧ n = 2).
Proof.
  unfold roleHierarchy.
  destruct (String.eqb r "member") eqn:E1; [apply eqb_true in E1; subst|].
  { split; [intros [= <-]; auto|]. by intros [ [ _ -> ] | [ [ ? _ ] | [ ? _ ] ] ]. }
  destruct (String.eqb r "admin") eqn:E2; [apply eqb_true in E2; subst|].
  { split; [intros [= <-]; auto|]. by intros [ [ ? _ ] | [ [ _ -> ] | [ ? _ ] ] ]. }
  destruct (String.eqb r "owner") eqn:E3; [apply eqb_true in E3; subst|].
  { split; [intros [= <-]; auto|]. by intros [ [ ? _ ] | [ [ ? _ ] | [ _ -> ] ] ]. }
  split; [done|].
  intros [ [ -> _ ] | [ [ -> _ ] | [ -> _ ] ] ]; by rewrite ?String.eqb_refl in *.
Qed.

Lemma hasRequiredRole_spec a b :
  hasRequiredRole a b = true ↔
  ∃ x y, roleHierarchy a = Some x ∧ roleHierarchy b = Some y ∧ y ≤ x.
Proof.
  unfold hasRequiredRole.
  destruct (roleHierarchy a) as [x|], (roleHierarchy b) as [y|].
  - rewrite Z.leb_le. split; [by exists x, y|]. by intros (? & ? & [= <-] & [= <-] & ?).
  - split; [done|]. by intros (? & ? & _ & ? & _).
  - split; [done|]. by intros (? & ? & ? & _).
  - split; [done|]. by intros (? & ? & ? & _).
Qed.

(** [hasRequiredRole] orders the three roles member < admin < owner: on them
    it is reflexive, transitive, antisymmetric and total; an owner meets
    every requirement and every role meets "member"; a member is not an
    admin and an admin is not an owner.  A string that is not one of the
    three meets no requirement that is a role, and no role meets it. *)
Theorem hasRequiredRole_order :
  (∀ r, known_role r →
        hasRequiredRole r r = true
        ∧ hasRequiredRole "owner" r = true
        ∧ hasRequiredRole r "member" = true)
  ∧ (∀ a b c, known_role a → known_role b → known_role c →
              hasRequiredRole a b = true → hasRequiredRole b c = true →
              hasRequiredRole a c = true)
  ∧ (∀ a b, known_role a → known_role b →
            hasRequiredRole a b = true → hasRequiredRole b a = true → a = b)
  ∧ (∀ a b, known_role a → known_role b →
            hasRequiredRole a b = true ∨ hasRequiredRole b a = true)
  ∧ hasRequiredRole "member" "admin" = false
  ∧ hasRequiredRole "admin" "owner" = false
  ∧ (∀ r x, known_role r → ¬ known_role x →
            hasRequiredRole x r = false ∧ hasRequiredRole r x = false).
Proof.
  split_and!; try done.
  - by intros r [ -> | [ -> | -> ] ].
  - intros a b c _ _ _ (x & y & Ha & Hb & Hxy)%hasRequiredRole_spec
      (y' & z & Hb' & Hc & Hyz)%hasRequiredRole_spec.
    apply hasRequiredRole_spec. exists x, z. split_and!; try done.
    assert (y = y') by congruence. lia.
  - by intros a b [ -> | [ -> | -> ] ] [ -> | [ -> | -> ] ].
  - intros a b [ -> | [ -> | -> ] ] [ -> | [ -> | -> ] ]; auto.
  - intros r x Hr Hx.
    assert (roleHierarchy x = None) as Hnone.
    { destruct (roleHierarchy x) as [n|] eqn:E; [|done].
      apply roleHierarchy_known in E. exfalso. apply Hx.
      unfold known_role. destruct E as [ [ ? _ ] | [ [ ? _ ] | [ ? _ ] ] ]; auto. }
    unfold hasRequiredRole. rewrite Hnone.
    by destruct (roleHierarchy r).
Qed.

Lemma access_rows_elem uid members w x m org :
  (m, org) ∈ access_rows uid members w x →
  m ∈ members ∧ member_user_id m = uid
  ∧ organizations w !! member_organization_id m = Some org
  ∧ (if isUuid x then member_organization_id m = x else slug org = x).
Proof.
  unfold access_rows. intros (m' & Hin & H)%list_elem_of_omap.
  destruct (organizations w !! member_organization_id m') as [o|] eqn:Ho;
    [|done].
  destruct (String.eqb (member_user_id m') uid) eqn:E1; [|done].
  simpl in H. apply eqb_true in E1.
  destruct (isUuid x).
  - destruct (String.eqb (member_organization_id m') x) eqn:E2; [|done].
    injection H as <- <-. by apply eqb_true in E2.
  - destruct (String.eqb (slug o) x) eqn:E2; [|done].
    injection H as <- <-. by apply eqb_true in E2.
Qed.

Lemma requireOrganizationAccess_Ok auth w x role org :
  requireOrganizationAccess auth w x role = Ok org →
  ∃ uid m,
    session_user auth = Some uid
    ∧ access_rows uid (organization_members auth) w x = [(m, org)]
    ∧ ∀ r, role = Some r → r ≠ "" → hasRequiredRole (member_role m) r = true.
Proof.
  unfold requireOrganizationAccess.
  destruct (session_user auth) as [uid|]; [|done].
  destruct (members_error auth); [done|].
  destruct (access_rows _ _ _ _) as [|[m o] [|??]] eqn:Hrows; try done.
  simpl. intros H. exists uid, m.
  destruct role as [r|].
  - destruct (truthy (Some r)) eqn:Et; simpl in H.
    + destruct (hasRequiredRole (member_role m) r) eqn:Eh; [|done].
      injection H as ->. split_and!; try done. by intros ? [= <-] _.
    + injection H as ->. split_and!; try done. intros ? [= <-] Hne.
      by apply truthy_Some in Hne; congruence.
  - injection H as ->. by split_and!.
Qed.

(** [requireOrganizationAccess] returns an organization only to a signed-in
    user who has a membership in it with the required role: the organization
    returned is the one that membership points to, found by its id when the
    argument has the shape of a UUID and by its slug otherwise. *)
Theorem requireOrganizationAccess_sound auth w x role org :
  requireOrganizationAccess auth w x role = Ok org →
  ∃ uid m,
    session_user auth = Some uid
    ∧ m ∈ organization_members auth
    ∧ member_user_id m = uid
    ∧ organizations w !! member_organization_id m = Some org
    ∧ (if isUuid x then member_organization_id m = x else slug org = x)
    ∧ ∀ r, role = Some r → r ≠ "" → hasRequiredRole (member_role m) r = true.
Proof.
  intros (uid & m & Hu & Hrows & Hrole)%requireOrganizationAccess_Ok.
  exists uid, m.
  assert ((m, org) ∈ access_rows uid (organization_members auth) w x) as Hin
    by (rewrite Hrows; by left).
  apply access_rows_elem in Hin as (? & ? & ? & ?). by split_and!.
Qed.

Lemma requireOrganizationAccess_sound_witness :
  ∃ uid m,
    session_user sample_auth = Some uid
    ∧ m ∈ organization_members sample_auth
    ∧ member_user_id m = uid
    ∧ hasRequiredRole (member_role m) "admin" = true.
Proof.
  destruct (requireOrganizationAccess_sound sample_auth uuid_world
              "0a1b2c3d-0000-4000-8000-00000000000a" (Some "admin")
              {| name := "Acme"; slug := "acme";
                 stripe_customer_id := Some "cus_1";
                 stripe_subscription_id := Some "sub_2";
                 subscription_status := Some "active";
                 subscription_plan := Some "pro";
                 seat_count := 0; created_at := 0; updated_at := 0 |})
    as (uid & m & Hu & Hin & Hm & _ & _ & Hr).
  - by vm_compute.
  - exists uid, m. split; [exact Hu|]. split; [exact Hin|]. split; [exact Hm|].
    apply Hr; [reflexivity|discriminate].
Defined.

Lemma access_rows_by_id uid members w x :
  isUuid x = true →
  access_rows uid members w x
  = match organizations w !! x with
    | Some org =>
        (λ m, (m, org))
          <$> filter (λ m, member_user_id m = uid
                           ∧ member_organization_id m = x) members
    | None => []
    end.
Proof.
  intros Hx. unfold access_rows. rewrite Hx.
  induction members as [|m members IH]; csimpl.
  { by destruct (organizations w !! x). }
  rewrite IH, filter_cons.
  destruct (decide (member_user_id m = uid ∧ member_organization_id m = x))
    as [[Hu Ho]|Hno].
  - rewrite Ho. destruct (organizations w !! x) as [org|]; [|done].
    rewrite <- Ho at 1. rewrite (proj2 (eqb_true _ _) Hu).
    by rewrite Ho, String.eqb_refl.
  - destruct (organizations w !! member_organization_id m) as [o|]; [|done].
    destruct (String.eqb (member_user_id m) uid) eqn:E1; [|done].
    destruct (String.eqb (member_organization_id m) x) eqn:E2; [|done].
    apply eqb_true in E1, E2. tauto.
Qed.

(** When the store answers, [requireOrganizationAccess] called with the id
    of an organization, of UUID shape, lets in a signed-in user who has
    exactly one membership row in that organization, with a role that meets
    the required one: it returns that organization. *)
Theorem requireOrganizationAccess_grants auth w x role uid m org :
  session_user auth = Some uid →
  members_error auth = None →
  isUuid x = true →
  organizations w !! x = Some org →
  filter (λ m, member_user_id m = uid ∧ member_organization_id m = x)
    (organization_members auth) = [m] →
  (∀ r, role = Some r → r ≠ "" → hasRequiredRole (member_role m) r = true) →
  requireOrganizationAccess auth w x role = Ok org.
Proof.
  intros Hu He Hx Ho Hf Hrole.
  unfold requireOrganizationAccess.
  rewrite Hu, He, access_rows_by_id, Ho, Hf by done. csimpl.
  destruct role as [r|]; [|done].
  destruct (truthy (Some r)) eqn:Et; [|done].
  rewrite (Hrole r eq_refl); [done|]. by apply truthy_Some.
Qed.

Lemma requireOrganizationAccess_grants_witness :
  requireOrganizationAccess sample_auth uuid_world
    "0a1b2c3d-0000-4000-8000-00000000000a" (Some "admin")
  = Ok {| name := "Acme"; slug := "acme";
          stripe_customer_id := Some "cus_1";
          stripe_subscription_id := Some "sub_2";
          subscription_status := Some "active";
          subscription_plan := Some "pro";
          seat_count := 0; created_at := 0; updated_at := 0 |}.
Proof.
  apply (requireOrganizationAccess_grants sample_auth uuid_world
           "0a1b2c3d-0000-4000-8000-00000000000a" (Some "admin") "user-1"
           {| member_user_id := "user-1";
              member_organization_id := "0a1b2c3d-0000-4000-8000-00000000000a";
              member_role := "admin" |}).
  - reflexivity.
  - reflexivity.
  - reflexivity.
  - reflexivity.
  - reflexivity.
  - intros r [= <-] _. reflexivity.
Defined.

(** A store that fails on the membership query lets nobody in. *)
Example requireOrganizationAccess_store_fails :
  requireOrganizationAccess
    {| session_user := session_user sample_auth;
       organization_members := organization_members sample_auth;
       members_error := Some "connection refused" |}
    uuid_world "0a1b2c3d-0000-4000-8000-00000000000a" (Some "admin")
  = Throw "NEXT_REDIRECT;/dashboard".
Proof. reflexivity. Qed.

Section GuardedRoutes.

Variable cfg : StripeConfig.

(** With [requireOrganizationAccess] as its guard, the [update-seats] route
    never reaches the provider for a caller who is not signed in or who is
    admin or owner of no organization: the provider's state, call log
    included, is what it was. *)
Theorem update_seats_POST_requires_admin auth w request :
  (∀ m, m ∈ organization_members auth →
        session_user auth = Some (member_user_id m) →
        hasRequiredRole (member_role m) "admin" = false) →
  stripe (update_seats_POST cfg (requireOrganizationAccess auth) w request).2
  = stripe w.
Proof.
  intros Hnone. unfold update_seats_POST.
  destruct request as [b|]; [|done].
  destruct (seats_organizationId b) as [oid|]; [|done].
  destruct (seats_seatCount b) as [n|]; [|done].
  destruct (negb (truthy (Some oid))); [done|].
  destruct (n <? 0); [done|].
  destruct (requireOrganizationAccess auth w oid (Some "admin")) as [org|]
    eqn:Hacc; [|done].
  exfalso.
  apply requireOrganizationAccess_Ok in Hacc as (uid & m & Hu & Hrows & Hrole).
  assert ((m, org) ∈ access_rows uid (organization_members auth) w oid) as Hin
    by (rewrite Hrows; by left).
  apply access_rows_elem in Hin as (Hin & Hm & _).
  assert (hasRequiredRole (member_role m) "admin" = true) as Hyes
    by (by apply Hrole).
  rewrite Hnone in Hyes; [done|done|]. by rewrite Hm.
Qed.

(** With the same guard, the [report-usage] route records nothing, at the
    provider or in the usage table, for a caller who is not signed in or has
    no membership. *)
Theorem report_usage_POST_requires_membership auth env w request :
  (∀ m, m ∈ organization_members auth →
        session_user auth ≠ Some (member_user_id m)) →
  stripe (report_usage_POST cfg (requireOrganizationAccess auth) env w
            request).2 = stripe w
  ∧ usage (report_usage_POST cfg (requireOrganizationAccess auth) env w
             request).2 = usage w.
Proof.
  intros Hnone. unfold report_usage_POST.
  destruct request as [b|]; [|done].
  destruct (usage_organizationId b) as [oid|]; [|done].
  destruct (usage_dimension b) as [d|]; [|done].
  destruct (usage_quantity b) as [q|]; [|done].
  destruct (negb (truthy (Some oid)) || negb (truthy (Some d))); [done|].
  destruct (q <? 0); [done|].
  destruct (requireOrganizationAccess auth w oid None) as [org|] eqn:Hacc;
    [|done].
  exfalso.
  apply requireOrganizationAccess_Ok in Hacc as (uid & m & Hu & Hrows & _).
  assert ((m, org) ∈ access_rows uid (organization_members auth) w oid) as Hin
    by (rewrite Hrows; by left).
  apply access_rows_elem in Hin as (Hin & Hm & _).
  apply (Hnone m Hin). by rewrite Hm.
Qed.

End GuardedRoutes.

Lemma update_seats_POST_requires_admin_witness :
  let auth :=
    {| session_user := Some "user-2";
       organization_members :=
         [ {| member_user_id := "user-2";
              member_organization_id := "0a1b2c3d-0000-4000-8000-00000000000a";
              member_role := "member" |} ];
       members_error := None |} in
  stripe
    (update_seats_POST sample_cfg (requireOrganizationAccess auth) uuid_world
       (Some {| seats_organizationId :=
                  Some "0a1b2c3d-0000-4000-8000-00000000000a";
                seats_seatCount := Some 50 |})).2
  = stripe uuid_world.
Proof.
  intros auth.
  apply (update_seats_POST_requires_admin sample_cfg auth uuid_world).
  intros m Hin _. apply list_elem_of_singleton in Hin. by subst m.
Defined.

Lemma report_usage_POST_requires_membership_witness :
  let auth := {| session_user := None;
                 organization_members := organization_members sample_auth;
                 members_error := None |} in
  stripe
    (report_usage_POST sample_cfg (requireOrganizationAccess auth) (at_time 1)
       uuid_world
       (Some {| usage_organizationId :=
                  Some "0a1b2c3d-0000-4000-8000-00000000000a";
                usage_dimension := Some "api_calls";
                usage_quantity := Some 5; usage_timestamp := None |})).2
  = stripe uuid_world.
Proof.
  intros auth.
  apply (report_usage_POST_requires_membership sample_cfg auth (at_time 1)
           uuid_world).
  intros m _. discriminate.
Defined.

(** ** The shape of an id *)

Lemma hex_run_length n s r :
  hex_run n s = Some r → String.length s = (n + String.length r)%nat.
Proof.
  revert s. induction n as [|n IH]; intros s; simpl.
  - by intros [= ->].
  - destruct s as [|c s]; [done|]. destruct (is_hex c); [|done].
    intros H. simpl. by rewrite (IH _ H).
Qed.

Lemma dash_length s r :
  dash s = Some r → String.length s = S (String.length r).
Proof.
  destruct s as [|c s]; [done|]. simpl.
  destruct (_ =? _)%nat; [|done]. by intros [= ->].
Qed.

(** What [isUuid] accepts has 36 characters; so the lookup of
    [requireOrganizationAccess] goes by slug for every argument of another
    length. *)
Theorem isUuid_length s : isUuid s = true → String.length s = 36%nat.
Proof.
  unfold isUuid.
  destruct (hex_run 8 s) as [s1|] eqn:H1; cbn [mbind option_bind]; [|done].
  destruct (dash s1) as [s2|] eqn:H2; cbn [mbind option_bind]; [|done].
  destruct (hex_run 4 s2) as [s3|] eqn:H3; cbn [mbind option_bind]; [|done].
  destruct (dash s3) as [s4|] eqn:H4; cbn [mbind option_bind]; [|done].
  destruct (hex_run 4 s4) as [s5|] eqn:H5; cbn [mbind option_bind]; [|done].
  destruct (dash s5) as [s6|] eqn:H6; cbn [mbind option_bind]; [|done].
  destruct (hex_run 4 s6) as [s7|] eqn:H7; cbn [mbind option_bind]; [|done].
  destruct (dash s7) as [s8|] eqn:H8; cbn [mbind option_bind]; [|done].
  destruct (hex_run 12 s8) as [[|??]|] eqn:H9; try done. intros _.
  apply hex_run_length in H1, H3, H5, H7, H9.
  apply dash_length in H2, H4, H6, H8. simpl in *. lia.
Qed.

Lemma isUuid_length_witness :
  String.length "0A1B2C3D-0000-4000-8000-00000000000f" = 36%nat.
Proof. apply isUuid_length. reflexivity. Defined.

(** ** The current month *)

Example getFullYear_2024 : getFullYear 1706702400000 = 2024.
Proof. reflexivity. Qed.

Example getMonth_january : getMonth 1706702400000 = 0.
Proof. reflexivity. Qed.

Example Date_of_2024_01_31 : Date_of 2024 1 0 = 1706659200000.
Proof. reflexivity. Qed.

Example Date_of_carries_december : Date_of 2023 12 1 = Date_of 2024 0 1.
Proof. reflexivity. Qed.

Lemma DayFromYear_succ y :
  DayFromYear (y + 1) = DayFromYear y + 365 + InLeapYear y.
Proof.
  unfold DayFromYear, InLeapYear, DaysInYear.
  destruct (y `mod` 4 =? 0) eqn:E4; simpl;
    [destruct (y `mod` 100 =? 0) eqn:E100; simpl;
       [destruct (y `mod` 400 =? 0) eqn:E400; simpl|]|];
    rewrite ?Z.eqb_eq, ?Z.eqb_neq in *;
    Z.div_mod_to_equations; lia.
Qed.

Lemma Date_of_month_end y m :
  0 ≤ m ≤ 11 → ¬ (0 ≤ y ≤ 99) →
  Date_of y (m + 1) 0
  = Date_of y m 1 + (days_in_month y m - 1) * msPerDay.
Proof.
  intros Hm Hy. unfold Date_of.
  assert ((0 <=? y) && (y <=? 99) = false) as ->.
  { apply not_true_iff_false. rewrite andb_true_iff, !Z.leb_le. lia. }
  rewrite <- Z.mul_add_distr_r. f_equal. unfold MakeDay.
  destruct (decide (m = 11)) as [->|Hne].
  - change ((11 + 1) `div` 12) with 1. change ((11 + 1) `mod` 12) with 0.
    change (11 `div` 12) with 0. change (11 `mod` 12) with 11.
    replace (y + 0) with y by lia. rewrite DayFromYear_succ.
    unfold days_in_month, month_start.
    generalize (DayFromYear y), (InLeapYear y), (InLeapYear (y + 1)).
    intros D L L'. simpl. lia.
  - rewrite (Z.div_small (m + 1) 12), (Z.mod_small (m + 1) 12),
      (Z.div_small m 12), (Z.mod_small m 12) by lia.
    replace (y + 0) with y by lia. unfold days_in_month.
    generalize (DayFromYear y), (InLeapYear y). intros D L.
    assert (m = 0 ∨ m = 1 ∨ m = 2 ∨ m = 3 ∨ m = 4 ∨ m = 5 ∨ m = 6 ∨ m = 7
            ∨ m = 8 ∨ m = 9 ∨ m = 10) as Hcases by lia.
    destruct Hcases as [ -> | [ -> | [ -> | [ -> | [ -> | [ -> | [ -> |
                       [ -> | [ -> | [ -> | -> ] ] ] ] ] ] ] ] ] ];
      unfold month_start, days_in_month; simpl; lia.
Qed.

(** With a store that answers, the summary of the current month runs from
    the first instant of the month of [now] to the first instant of that
    month's last day, both included: it is the summary of a period that is
    one day short of the month. *)
Theorem getCurrentMonthUsage_period o env tbl d y m :
  getFullYear (now env) = y → getMonth (now env) = m →
  0 ≤ m ≤ 11 → ¬ (0 ≤ y ≤ 99) → select_error env = None →
  let first := Date_of y m 1 in
  let last := first + (days_in_month y m - 1) * msPerDay in
  ∃ sm,
    getCurrentMonthUsage o env tbl d = Ok sm
    ∧ period sm = (first, last)
    ∧ totalUsage sm = sum_quantity (within_closed o d first last tbl)
    ∧ recordCount sm = length (within_closed o d first last tbl).
Proof.
  intros Hy Hm Hrange Hyear Hsel first last. unfold getCurrentMonthUsage.
  rewrite Hy, Hm, Date_of_month_end by done. fold first. fold last.
  destruct (getUsageSummary_ok o env tbl d first last Hsel)
    as (sm & Hsm & _ & Ht & Hc & Hp).
  exists sm. by split_and!.
Qed.

Lemma getCurrentMonthUsage_period_witness :
  ∃ sm,
    getCurrentMonthUsage "org-1" (at_time 1706702400000)
      {| usage_records :=
           [ {| row_id := 0; organization_id := "org-1";
                dimension := "api_calls"; quantity := 5;
                timestamp := 1706700000000;
                stripe_usage_record_id := None |} ];
         next_id := 1 |} "api_calls" = Ok sm
    ∧ period sm = (1704067200000, 1706659200000)
    ∧ totalUsage sm = 0.
Proof.
  destruct (getCurrentMonthUsage_period "org-1" (at_time 1706702400000)
      {| usage_records :=
           [ {| row_id := 0; organization_id := "org-1";
                dimension := "api_calls"; quantity := 5;
                timestamp := 1706700000000;
                stripe_usage_record_id := None |} ];
         next_id := 1 |} "api_calls" 2024 0)
    as (sm & H & Hp & Ht & _).
  - reflexivity.
  - reflexivity.
  - lia.
  - lia.
  - reflexivity.
  - exists sm. split; [exact H|]. split; [exact Hp | exact Ht].
Defined.

(** Usage tracked without a timestamp at an instant that lies after the end
    of the period [getCurrentMonthUsage] computes from that same instant
    (any time after midnight on the last day of a month) does not show in
    the summary of the current month. *)
Theorem getCurrentMonthUsage_misses_last_day o env tbl d q key :
  Date_of (getFullYear (now env)) (getMonth (now env) + 1) 0 < now env →
  getCurrentMonthUsage o env (trackUsage o env tbl d q None key).2 d
  = getCurrentMonthUsage o env tbl d.
Proof.
  intros Hlate. unfold getCurrentMonthUsage, getUsageSummary.
  destruct (select_error env) as [msg|]; [done|].
  assert (List.filter
            (in_period o d
               (Date_of (getFullYear (now env)) (getMonth (now env)) 1)
               (Date_of (getFullYear (now env)) (getMonth (now env) + 1) 0))
            (usage_records (trackUsage o env tbl d q None key).2)
          = List.filter
              (in_period o d
                 (Date_of (getFullYear (now env)) (getMonth (now env)) 1)
                 (Date_of (getFullYear (now env)) (getMonth (now env) + 1) 0))
              (usage_records tbl)) as ->; [|done].
  unfold trackUsage.
  destruct (trackUsage_lookup o env tbl d key); [done|].
  unfold trackUsage_insert, insert_rows.
  destruct (insert_error env); [done|]. simpl.
  rewrite List.filter_app. simpl.
  assert (in_period o d
            (Date_of (getFullYear (now env)) (getMonth (now env)) 1)
            (Date_of (getFullYear (now env)) (getMonth (now env) + 1) 0)
            (stored (next_id tbl)
               {| ins_organization_id := o; ins_dimension := d;
                  ins_quantity := q; ins_timestamp := now env;
                  ins_stripe_usage_record_id := key |}) = false) as ->.
  { apply not_true_iff_false. rewrite in_period_spec. simpl. lia. }
  by rewrite app_nil_r.
Qed.

Lemma getCurrentMonthUsage_misses_last_day_witness :
  let env := at_time 1706702400000 in
  let tbl := {| usage_records := []; next_id := 0 |} in
  getCurrentMonthUsage "org-1" env
    (trackUsage "org-1" env tbl "api_calls" 5 None None).2 "api_calls"
  = getCurrentMonthUsage "org-1" env tbl "api_calls".
Proof.
  intros env tbl.
  apply (getCurrentMonthUsage_misses_last_day "org-1" env tbl "api_calls" 5
           None).
  vm_compute. reflexivity.
Defined.

(** ** Checkout *)

Section Checkout.

Variable access : World → string → option string → result Organization.
Variable create : CheckoutParams → result string.
Variable APP_URL : string.

(** For a caller let in as admin and an organization with a customer, the
    [create-checkout-session] route asks the provider for one session, for
    the organization's customer and the requested price, with the
    organization's id in the metadata of the session and of the subscription
    to come.  The line item's quantity is the requested seat count when the
    checkout is per seat and the count is a number other than 0, and 1 in
    every other case; it is never 0, and a negative count goes through. *)
Theorem create_checkout_session_POST_params w oid pid per seats org cus :
  oid ≠ "" → pid ≠ "" →
  access w oid (Some "admin") = Ok org →
  stripe_customer_id org = Some cus → cus ≠ "" →
  ∃ params,
    create_checkout_session_POST access create APP_URL w
      (Some {| co_organizationId := Some oid; co_priceId := Some pid;
               co_isPerSeat := per; co_seatCount := seats |})
    = match create params with
      | Ok sessionId => (200, CheckoutSessionId sessionId)
      | Throw _ => (500, CheckoutError "Failed to create checkout session")
      end
    ∧ cp_customer params = cus ∧ cp_price params = pid
    ∧ cp_metadata_organization_id params = oid
    ∧ cp_subscription_metadata_organization_id params = oid
    ∧ cp_quantity params ≠ 0
    ∧ (per ≠ Some true → cp_quantity params = 1)
    ∧ (per = Some true →
       match seats with
       | Some n => cp_quantity params = if n =? 0 then 1 else n
       | None => cp_quantity params = 1
       end).
Proof.
  intros Hoid Hpid Hacc Hcus Hcusne. unfold create_checkout_session_POST.
  cbn [co_organizationId co_priceId co_isPerSeat co_seatCount].
  rewrite (proj2 (truthy_Some oid) Hoid), (proj2 (truthy_Some pid) Hpid).
  cbn [negb orb]. rewrite Hacc, Hcus, (proj2 (truthy_Some cus) Hcusne).
  unfold createCheckoutSession. eexists. split; [reflexivity|].
  cbn [cp_customer cp_price cp_metadata_organization_id
       cp_subscription_metadata_organization_id cp_quantity ca_customerId
       ca_priceId ca_organizationId ca_isPerSeat ca_seatCount default].
  split_and!; try done.
  - destruct per as [[]|]; simpl; [|done..].
    destruct seats as [n|]; simpl; [|done].
    destruct (n =? 0) eqn:E; simpl; [done|]. by apply Z.eqb_neq.
  - intros Hper. by destruct per as [[]|].
  - intros ->. simpl. destruct seats as [n|]; simpl; [|done].
    by destruct (n =? 0).
Qed.

(** A 400 answer of the route is decided before the provider is asked: it
    is the same whatever the provider would have answered. *)
Theorem create_checkout_session_POST_400 (create' : CheckoutParams → result string)
    w request :
  (create_checkout_session_POST access create APP_URL w request).1 = 400 →
  create_checkout_session_POST access create' APP_URL w request
  = create_checkout_session_POST access create APP_URL w request.
Proof.
  unfold create_checkout_session_POST.
  destruct request as [b|]; [|done].
  destruct (co_organizationId b) as [oid|]; [|done].
  destruct (co_priceId b) as [pid|]; [|done].
  destruct (negb (truthy (Some oid)) || negb (truthy (Some pid))); [done|].
  destruct (access w oid (Some "admin")) as [org|]; [|done].
  destruct (stripe_customer_id org) as [cus|]; [|done].
  destruct (truthy (Some cus)); [|done].
  by destruct (createCheckoutSession create _).
Qed.

End Checkout.

Lemma create_checkout_session_POST_params_witness :
  let create (p : CheckoutParams) : result string :=
    if cp_quantity p <? 1 then Throw "Invalid integer" else Ok "cs_1" in
  create_checkout_session_POST (grant "sub_2") create "https://app.example"
    sample_world
    (Some {| co_organizationId := Some "org-1"; co_priceId := Some "price_per_seat";
             co_isPerSeat := Some true; co_seatCount := Some 0 |})
  = (200, CheckoutSessionId "cs_1").
Proof.
  intros create.
  destruct (create_checkout_session_POST_params (grant "sub_2") create
              "https://app.example" sample_world "org-1" "price_per_seat"
              (Some true) (Some 0)
              (match grant "sub_2" sample_world "org-1" (Some "admin") with
               | Ok o => o
               | Throw _ => sample_organization
               end) "cus_1")
    as (params & H & _ & _ & _ & _ & _ & _ & Hq).
  - discriminate.
  - discriminate.
  - reflexivity.
  - reflexivity.
  - discriminate.
  - rewrite H. specialize (Hq eq_refl). simpl in Hq.
    unfold create. by rewrite Hq.
Defined.

Lemma create_checkout_session_POST_400_witness :
  create_checkout_session_POST (grant "sub_2") (λ _, Ok "cs_1")
    "https://app.example" sample_world
    (Some {| co_organizationId := Some "org-1"; co_priceId := None;
             co_isPerSeat := None; co_seatCount := None |})
  = create_checkout_session_POST (grant "sub_2") (λ _, Throw "down")
      "https://app.example" sample_world
      (Some {| co_organizationId := Some "org-1"; co_priceId := None;
               co_isPerSeat := None; co_seatCount := None |}).
Proof.
  apply (create_checkout_session_POST_400 (grant "sub_2") (λ _, Throw "down")
           "https://app.example" (λ _, Ok "cs_1") sample_world).
  reflexivity.
Defined.
